(** * Wifi HAL legacy service and interface utilities

    A shallow embedding of

    - [wifi_hal_legacy/failure_reason_util.cpp]: the translation of legacy
      HAL error codes into HIDL failure reasons;
    - [wifi_hal_legacy/wifi_hal_service.cpp]: the start/stop life cycle of
      [WifiHalService], with the rendezvous between the return of
      [wifi_cleanup] and the termination of the HAL event loop;
    - [libwifi_system/interface_utils.cpp]: [set_iface_up].

    Each C++ function is a Rocq function of the same name.  Member
    functions run in a small monad that threads the object's fields,
    collects every externally visible action (log line, call into the
    legacy HAL, callback invocation, thread operation, looper message) in
    a trace, and can abort the process. *)

From Stdlib Require Import ZArith List String Ascii Bool Lia Eqdep_dec Sorted.
Import ListNotations.

Local Open Scope string_scope.
Local Open Scope list_scope.
Local Open Scope Z_scope.

(* ================================================================== *)
(** * failure_reason_util.cpp *)
(* ================================================================== *)

Module FailureReasonUtil.

(** [V1_0::CommandFailureReason], the categories used by this file. *)
Inductive CommandFailureReason : Type :=
| UNKNOWN
| NOT_AVAILABLE
| NOT_SUPPORTED
| INVALID_ARGS.

(** [wifi_error] is the C enumeration of the legacy HAL header
    [wifi_hal.h]; a value of that type is an integer, and the [switch] of
    [CreateFailureReasonLegacyError] has a [default] label for integers
    that are none of the named enumerators.  The enumerators carry the
    values of that header. *)
Definition wifi_error : Type := Z.

Definition WIFI_SUCCESS : wifi_error := 0.
Definition WIFI_ERROR_NONE : wifi_error := 0.
Definition WIFI_ERROR_UNKNOWN : wifi_error := -1.
Definition WIFI_ERROR_UNINITIALIZED : wifi_error := -2.
Definition WIFI_ERROR_NOT_SUPPORTED : wifi_error := -3.
Definition WIFI_ERROR_NOT_AVAILABLE : wifi_error := -4.
Definition WIFI_ERROR_INVALID_ARGS : wifi_error := -5.
Definition WIFI_ERROR_INVALID_REQUEST_ID : wifi_error := -6.
Definition WIFI_ERROR_TIMED_OUT : wifi_error := -7.
Definition WIFI_ERROR_TOO_MANY_REQUESTS : wifi_error := -8.
Definition WIFI_ERROR_OUT_OF_MEMORY : wifi_error := -9.

(** [V1_0::FailureReason]. *)
Record FailureReason : Type := mkFailureReason {
  reason : CommandFailureReason;
  description : string
}.

(** A [std::string] may hold any character, the NUL character included. *)
Definition NUL : ascii := Ascii.zero.

(** [description.data()] is a [const char*]: what is assigned from it is
    the C string it points to, that is the characters before the first
    NUL. *)
Fixpoint c_str (s : string) : string :=
  match s with
  | EmptyString => EmptyString
  | String c rest => if Ascii.eqb c NUL then EmptyString else String c (c_str rest)
  end.

(** [s] holds no NUL character. *)
Fixpoint nul_free (s : string) : bool :=
  match s with
  | EmptyString => true
  | String c rest => negb (Ascii.eqb c NUL) && nul_free rest
  end.

(** [[
  V1_0::FailureReason result;
  result.reason = reason;
  result.description = description.data();
  return result;
]] *)
Definition CreateFailureReason (r : CommandFailureReason) (desc : string)
  : FailureReason :=
  {| reason := r; description := c_str desc |}.

(** The [switch] over [error]; labels that share a body are joined with
    [||], and the last branch is the body of [WIFI_ERROR_NONE],
    [WIFI_ERROR_UNKNOWN] and [default]. *)
Definition CreateFailureReasonLegacyError (error : wifi_error) (desc : string)
  : FailureReason :=
  if (error =? WIFI_ERROR_UNINITIALIZED) || (error =? WIFI_ERROR_NOT_AVAILABLE)
  then CreateFailureReason NOT_AVAILABLE desc
  else if error =? WIFI_ERROR_NOT_SUPPORTED
  then CreateFailureReason NOT_SUPPORTED desc
  else if (error =? WIFI_ERROR_INVALID_ARGS) || (error =? WIFI_ERROR_INVALID_REQUEST_ID)
  then CreateFailureReason INVALID_ARGS desc
  else if error =? WIFI_ERROR_TIMED_OUT
  then CreateFailureReason UNKNOWN (desc ++ ", timed out")%string
  else if error =? WIFI_ERROR_TOO_MANY_REQUESTS
  then CreateFailureReason UNKNOWN (desc ++ ", too many requests")%string
  else if error =? WIFI_ERROR_OUT_OF_MEMORY
  then CreateFailureReason UNKNOWN (desc ++ ", out of memory")%string
  else CreateFailureReason UNKNOWN "unknown".

(** The codes that have a row of their own in the translation table. *)
Definition translated_codes : list wifi_error :=
  [ WIFI_ERROR_UNINITIALIZED; WIFI_ERROR_NOT_AVAILABLE; WIFI_ERROR_NOT_SUPPORTED;
    WIFI_ERROR_INVALID_ARGS; WIFI_ERROR_INVALID_REQUEST_ID; WIFI_ERROR_TIMED_OUT;
    WIFI_ERROR_TOO_MANY_REQUESTS; WIFI_ERROR_OUT_OF_MEMORY ].

Definition has_own_row (error : wifi_error) : bool :=
  existsb (Z.eqb error) translated_codes.

End FailureReasonUtil.

(* ================================================================== *)
(** * std::set of callback handles *)
(* ================================================================== *)

(** [callbacks_] is filled with [callbacks_.insert(callback)] and read
    with a range-for: it is a [std::set] of [sp<IWifiEventCallback>].  An
    [sp] is compared by the address it holds, so a handle is that
    address, and the set is the strictly ascending sequence of its
    elements, which is the order a range-for visits them in. *)
Module StdSet.

Definition key : Type := Z.

Fixpoint ascending (l : list key) : bool :=
  match l with
  | [] => true
  | x :: rest =>
      match rest with
      | [] => true
      | y :: _ => (x <? y) && ascending rest
      end
  end.

(** The place of [x] in an ascending sequence; an equal key is kept and
    nothing is added. *)
Fixpoint insert_ascending (x : key) (l : list key) : list key :=
  match l with
  | [] => [x]
  | y :: rest =>
      if x <? y then x :: l
      else if x =? y then l
      else y :: insert_ascending x rest
  end.

Lemma ascending_tail (x : key) (l : list key) :
  ascending (x :: l) = true -> ascending l = true.
Proof.
  destruct l as [|y l]; simpl; [reflexivity|].
  intros H; apply andb_true_iff in H; tauto.
Qed.

Lemma ascending_cons (x : key) (l : list key) :
  ascending l = true ->
  (forall y, hd_error l = Some y -> x < y) ->
  ascending (x :: l) = true.
Proof.
  destruct l as [|y l]; intros Hl Hx; [reflexivity|].
  change (((x <? y) && ascending (y :: l))%bool = true).
  rewrite Hl, andb_true_r. apply Z.ltb_lt, Hx. reflexivity.
Qed.

Lemma insert_ascending_hd (x z : key) (l : list key) :
  hd_error (insert_ascending x l) = Some z ->
  z = x \/ hd_error l = Some z.
Proof.
  destruct l as [|y l]; simpl.
  - intros H; injection H as <-; now left.
  - destruct (x <? y); [intros H; injection H as <-; now left|].
    destruct (x =? y); simpl; intros H; now right.
Qed.

Lemma insert_ascending_ok (x : key) (l : list key) :
  ascending l = true -> ascending (insert_ascending x l) = true.
Proof.
  induction l as [|y l IH]; intros Hl; [reflexivity|].
  cbn [insert_ascending].
  destruct (x <? y) eqn:Hxy.
  - apply ascending_cons; [exact Hl|].
    intros z Hz; injection Hz as <-. now apply Z.ltb_lt.
  - destruct (x =? y) eqn:Exy; [exact Hl|].
    apply ascending_cons.
    + apply IH. exact (ascending_tail _ _ Hl).
    + intros z Hz. apply insert_ascending_hd in Hz as [->|Hz].
      * apply Z.ltb_ge in Hxy. apply Z.eqb_neq in Exy. lia.
      * destruct l as [|w l]; [discriminate|].
        injection Hz as <-. simpl in Hl.
        apply andb_true_iff in Hl as [Hl _]. now apply Z.ltb_lt.
Qed.

Record t : Type := mk {
  elements : list key;
  ordered : ascending elements = true
}.

Definition empty : t := mk [] eq_refl.

(** [s.insert(x)] *)
Definition insert (x : key) (s : t) : t :=
  mk (insert_ascending x (elements s)) (insert_ascending_ok x _ (ordered s)).

(** [s.count(x) != 0] *)
Definition mem (x : key) (s : t) : bool := existsb (Z.eqb x) (elements s).

End StdSet.

(* ================================================================== *)
(** * wifi_hal_service.cpp *)
(* ================================================================== *)

Module WifiHal.

Import FailureReasonUtil.

(** ** Data *)

(** [enum class State] *)
Inductive State : Type := STOPPED | STARTED | STOPPING.

Definition State_eqb (a b : State) : bool :=
  match a, b with
  | STOPPED, STOPPED | STARTED, STARTED | STOPPING, STOPPING => true
  | _, _ => false
  end.

(** An [sp<V1_0::IWifiEventCallback>], by the address it holds; the
    null pointer is address [0]. *)
Definition callback_handle : Type := StdSet.key.

Definition null : callback_handle := 0.

(** [wifi_handle], an opaque value handed out by the legacy HAL. *)
Definition wifi_handle : Type := Z.

(** The closures this file hands to [PostTask]; there is one, the lambda
    at the end of [DoHalEventLoop]. *)
Inductive task : Type :=
| EventLoopTerminated.

(** A [std::thread] object either owns a thread (joinable) or not. *)
Inductive thread : Type := NotAThread | Joinable.

(** The fields of [WifiHalService].  [looper_] points to the looper the
    object was constructed with, which is shared; it is modelled by the
    looper's queue of messages, oldest first. *)
Record WifiHalService : Type := mkService {
  looper_ : list task;
  callbacks_ : StdSet.t;
  state_ : State;
  hal_handle_ : wifi_handle;
  event_loop_thread_ : thread;
  awaiting_hal_cleanup_command_ : bool;
  awaiting_hal_event_loop_termination_ : bool
}.

(** ** What the outside sees *)

Inductive severity : Type := VERBOSE | INFO | ERROR | FATAL.

(** The methods of [IWifiEventCallback]. *)
Inductive notification : Type :=
| onStart
| onStartFailure (r : FailureReason)
| onStop.

(** The entries of [hal_func_table_] that are called. *)
Inductive hal_call : Type :=
| wifi_initialize
| wifi_cleanup (h : wifi_handle)
| wifi_event_loop (h : wifi_handle).

Inductive event : Type :=
| Log (sev : severity) (msg : string)
| Hal (c : hal_call)
| Callback (cb : callback_handle) (n : notification)
| ThreadCreate
| ThreadDetach.

Definition trace : Type := list event.

(** ** The monad of member functions

    A member function reads and writes the fields, appends to the trace,
    and either returns or aborts the process ([LOG(FATAL)],
    [std::terminate]). *)

Inductive outcome (A : Type) : Type :=
| Returns (a : A) (s : WifiHalService) (tr : trace)
| Aborts (tr : trace).

Arguments Returns {A} a s tr.
Arguments Aborts {A} tr.

Definition M (A : Type) : Type := WifiHalService -> outcome A.

Definition ret {A} (a : A) : M A := fun s => Returns a s [].

Definition bind {A B} (m : M A) (k : A -> M B) : M B :=
  fun s =>
    match m s with
    | Returns a s1 tr1 =>
        match k a s1 with
        | Returns b s2 tr2 => Returns b s2 (tr1 ++ tr2)
        | Aborts tr2 => Aborts (tr1 ++ tr2)
        end
    | Aborts tr1 => Aborts tr1
    end.

Declare Scope hal_scope.
Delimit Scope hal_scope with hal.
Notation "x <- m ;; k" := (bind m (fun x => k))
  (at level 61, m at next level, right associativity) : hal_scope.
Notation "m ;; k" := (bind m (fun _ => k))
  (at level 61, right associativity) : hal_scope.
Local Open Scope hal_scope.

Definition emit (e : event) : M unit := fun s => Returns tt s [e].
Definition abort {A} : M A := fun _ => Aborts [].
Definition read {A} (field : WifiHalService -> A) : M A :=
  fun s => Returns (field s) s [].
Definition write (upd : WifiHalService -> WifiHalService) : M unit :=
  fun s => Returns tt (upd s) [].

Definition LOG (sev : severity) (msg : string) : M unit :=
  match sev with
  | FATAL => emit (Log FATAL msg) ;; abort
  | _ => emit (Log sev msg)
  end.

(** Field assignments. *)
Definition set_looper (q : list task) (s : WifiHalService) :=
  mkService q (callbacks_ s) (state_ s) (hal_handle_ s) (event_loop_thread_ s)
    (awaiting_hal_cleanup_command_ s) (awaiting_hal_event_loop_termination_ s).
Definition set_callbacks (c : StdSet.t) (s : WifiHalService) :=
  mkService (looper_ s) c (state_ s) (hal_handle_ s) (event_loop_thread_ s)
    (awaiting_hal_cleanup_command_ s) (awaiting_hal_event_loop_termination_ s).
Definition set_state (st : State) (s : WifiHalService) :=
  mkService (looper_ s) (callbacks_ s) st (hal_handle_ s) (event_loop_thread_ s)
    (awaiting_hal_cleanup_command_ s) (awaiting_hal_event_loop_termination_ s).
Definition set_hal_handle (h : wifi_handle) (s : WifiHalService) :=
  mkService (looper_ s) (callbacks_ s) (state_ s) h (event_loop_thread_ s)
    (awaiting_hal_cleanup_command_ s) (awaiting_hal_event_loop_termination_ s).
Definition set_event_loop_thread (t : thread) (s : WifiHalService) :=
  mkService (looper_ s) (callbacks_ s) (state_ s) (hal_handle_ s) t
    (awaiting_hal_cleanup_command_ s) (awaiting_hal_event_loop_termination_ s).
Definition set_awaiting_hal_cleanup_command (b : bool) (s : WifiHalService) :=
  mkService (looper_ s) (callbacks_ s) (state_ s) (hal_handle_ s)
    (event_loop_thread_ s) b (awaiting_hal_event_loop_termination_ s).
Definition set_awaiting_hal_event_loop_termination (b : bool) (s : WifiHalService) :=
  mkService (looper_ s) (callbacks_ s) (state_ s) (hal_handle_ s)
    (event_loop_thread_ s) (awaiting_hal_cleanup_command_ s) b.

(** [for (auto& callback : callbacks_) { body }] *)
Fixpoint for_each (l : list callback_handle) (body : callback_handle -> M unit)
  : M unit :=
  match l with
  | [] => ret tt
  | cb :: rest => body cb ;; for_each rest body
  end.

Definition for_callbacks (body : callback_handle -> M unit) : M unit :=
  cbs <- read callbacks_ ;;
  for_each (StdSet.elements cbs) body.

(** [callback->method(...)]: the pointer is dereferenced.  Nothing in
    the file tests a callback for null, so with the null pointer, which
    [registerEventCallback] inserts like any other, the call ends the
    process. *)
Definition call (n : notification) (cb : callback_handle) : M unit :=
  if cb =? null then abort else emit (Callback cb n).

(** ** Member functions *)

(** The object the constructor leaves when
    [init_wifi_vendor_hal_func_table] succeeds (it ends the process
    otherwise).  Its initializer list sets [looper_] and [state_]; a set
    and a thread object are empty when default-constructed.  The
    remaining fields get no value there, so what they hold at first is
    left open: [h], [c] and [e]. *)
Definition WifiHalService_ctor (looper : list task)
    (h : wifi_handle) (c e : bool) : WifiHalService :=
  {| looper_ := looper;
     callbacks_ := StdSet.empty;
     state_ := STOPPED;
     hal_handle_ := h;
     event_loop_thread_ := NotAThread;
     awaiting_hal_cleanup_command_ := c;
     awaiting_hal_event_loop_termination_ := e |}.

Definition registerEventCallback (callback : callback_handle) : M unit :=
  cbs <- read callbacks_ ;;
  write (set_callbacks (StdSet.insert callback cbs)).

Definition isStarted : M bool :=
  st <- read state_ ;;
  ret (negb (State_eqb st STOPPED)).

(** [PostTask]: the callback is wrapped in a message handler and sent to
    the looper. *)
Definition PostTask (callback : task) : M unit :=
  q <- read looper_ ;;
  write (set_looper (q ++ [callback])).

(** [event_loop_thread_ = std::thread(...)]: a new thread is created;
    move-assigning to a [std::thread] that still owns a thread calls
    [std::terminate]. *)
Definition assign_new_thread : M unit :=
  emit ThreadCreate ;;
  t <- read event_loop_thread_ ;;
  match t with
  | Joinable => abort
  | NotAThread => write (set_event_loop_thread Joinable)
  end.

(** [event_loop_thread_.detach()]: an error when the object owns no
    thread. *)
Definition detach_thread : M unit :=
  t <- read event_loop_thread_ ;;
  match t with
  | NotAThread => abort
  | Joinable => emit ThreadDetach ;; write (set_event_loop_thread NotAThread)
  end.

(** [start()].  [init] is what [wifi_initialize(&hal_handle_)] does when
    it is called: the status it returns and the value [hal_handle_] holds
    afterwards. *)
Definition start (init : wifi_error * wifi_handle) : M unit :=
  st <- read state_ ;;
  match st with
  | STARTED => for_callbacks (call onStart)
  | STOPPING =>
      for_callbacks
        (call (onStartFailure
                 (CreateFailureReason NOT_AVAILABLE "HAL is stopping")))
  | STOPPED =>
      LOG INFO "Initializing HAL" ;;
      emit (Hal wifi_initialize) ;;
      write (set_hal_handle (snd init)) ;;
      let status := fst init in
      if negb (status =? WIFI_SUCCESS) then
        LOG ERROR "Failed to initialize Wifi HAL" ;;
        for_callbacks
          (call (onStartFailure
                   (CreateFailureReasonLegacyError status
                      "Failed to initialize HAL")))
      else
        assign_new_thread ;;
        write (set_state STARTED) ;;
        for_callbacks (call onStart)
  end.

Definition FinishHalCleanup : M unit :=
  c <- read awaiting_hal_cleanup_command_ ;;
  e <- read awaiting_hal_event_loop_termination_ ;;
  if negb c && negb e then
    write (set_state STOPPED) ;;
    LOG INFO "HAL cleanup complete" ;;
    for_callbacks (call onStop)
  else ret tt.

(** [stop()] blocks inside [wifi_cleanup].  [stop_enter] runs the
    function up to that call and tells whether the call was made;
    [stop_resume] is the rest of the function, run when the call
    returns. *)
Inductive progress : Type := Finished | InHalCall.

Definition stop_enter : M progress :=
  st <- read state_ ;;
  match st with
  | STOPPED => for_callbacks (call onStop) ;; ret Finished
  | STOPPING => ret Finished
  | STARTED =>
      LOG INFO "Cleaning up HAL" ;;
      write (set_awaiting_hal_cleanup_command true) ;;
      write (set_awaiting_hal_event_loop_termination true) ;;
      write (set_state STOPPING) ;;
      h <- read hal_handle_ ;;
      emit (Hal (wifi_cleanup h)) ;;
      ret InHalCall
  end.

Definition stop_resume : M unit :=
  write (set_awaiting_hal_cleanup_command false) ;;
  LOG VERBOSE "HAL cleanup command complete" ;;
  FinishHalCleanup.

(** The statements of [stop_resume] before its call of
    [FinishHalCleanup]. *)
Definition stop_resume_clear : M unit :=
  write (set_awaiting_hal_cleanup_command false) ;;
  LOG VERBOSE "HAL cleanup command complete".

(** [stop()] when nothing else runs while it is inside [wifi_cleanup]. *)
Definition stop : M unit :=
  p <- stop_enter ;;
  match p with
  | Finished => ret tt
  | InHalCall => stop_resume
  end.

(** The lambda that [DoHalEventLoop] posts. *)
Definition run_task (t : task) : M unit :=
  match t with
  | EventLoopTerminated =>
      write (set_awaiting_hal_event_loop_termination false) ;;
      FinishHalCleanup
  end.

(** The statement of the lambda before its call of
    [FinishHalCleanup]. *)
Definition run_task_clear (t : task) : M unit :=
  match t with
  | EventLoopTerminated =>
      write (set_awaiting_hal_event_loop_termination false)
  end.

(** The looper handles its oldest message, if it has one. *)
Definition looper_runs : M unit :=
  q <- read looper_ ;;
  match q with
  | [] => ret tt
  | t :: rest => write (set_looper rest) ;; run_task t
  end.

(** The statements of the two completions when they run on two threads
    and overlap: [stop] clears its flag; the looper takes the message,
    and the lambda clears its flag and calls [FinishHalCleanup]; then
    [stop] calls [FinishHalCleanup]. *)
Definition completions_overlapping : M unit :=
  stop_resume_clear ;;
  q <- read looper_ ;;
  match q with
  | [] => FinishHalCleanup
  | t :: rest =>
      write (set_looper rest) ;;
      run_task_clear t ;;
      FinishHalCleanup ;;
      FinishHalCleanup
  end.

(** [DoHalEventLoop()] blocks inside [wifi_event_loop]:
    [DoHalEventLoop_enter] runs up to that call, [DoHalEventLoop_resume]
    is the rest of the function, run when the call returns. *)
Definition DoHalEventLoop_enter : M unit :=
  LOG VERBOSE "Starting HAL event loop" ;;
  h <- read hal_handle_ ;;
  emit (Hal (wifi_event_loop h)).

Definition DoHalEventLoop_resume : M unit :=
  st <- read state_ ;;
  (if negb (State_eqb st STOPPING)
   then LOG FATAL "HAL event loop terminated, but HAL was not stopping"
   else ret tt) ;;
  LOG VERBOSE "HAL Event loop terminated" ;;
  detach_thread ;;
  PostTask EventLoopTerminated.

(** Neither completion is awaited any more. *)
Definition both_clear (s : WifiHalService) : bool :=
  negb (awaiting_hal_cleanup_command_ s)
  && negb (awaiting_hal_event_loop_termination_ s).

(** ** Reading an outcome *)

Definition trace_of {A} (o : outcome A) : trace :=
  match o with Returns _ _ tr => tr | Aborts tr => tr end.

Definition final {A} (o : outcome A) : option WifiHalService :=
  match o with Returns _ s _ => Some s | Aborts _ => None end.

Definition aborted {A} (o : outcome A) : bool :=
  match o with Returns _ _ _ => false | Aborts _ => true end.

(** The trace of one broadcast that gets to its end: every element of
    the set, in the set's order, gets the notification. *)
Definition broadcast (n : notification) (s : WifiHalService) : trace :=
  map (fun cb => Callback cb n) (StdSet.elements (callbacks_ s)).

(** The handles of a list that come before the null pointer. *)
Fixpoint before_null (l : list callback_handle) : list callback_handle :=
  match l with
  | [] => []
  | cb :: rest => if cb =? null then [] else cb :: before_null rest
  end.

(** The trace of one broadcast that the null pointer ends. *)
Definition broadcast_cut (n : notification) (s : WifiHalService) : trace :=
  map (fun cb => Callback cb n) (before_null (StdSet.elements (callbacks_ s))).

(** The null pointer is registered. *)
Definition null_registered (s : WifiHalService) : bool :=
  StdSet.mem null (callbacks_ s).

(** The notifications that callback [cb] receives in a trace, in order. *)
Fixpoint received (cb : callback_handle) (tr : trace) : list notification :=
  match tr with
  | [] => []
  | Callback cb' n :: rest =>
      if cb' =? cb then n :: received cb rest else received cb rest
  | _ :: rest => received cb rest
  end.

(** The callbacks invoked in a trace, in order. *)
Fixpoint invoked (tr : trace) : list callback_handle :=
  match tr with
  | [] => []
  | Callback cb _ :: rest => cb :: invoked rest
  | _ :: rest => invoked rest
  end.

(** The callbacks whose [onStop] is invoked in a trace, in order. *)
Fixpoint onStop_calls (tr : trace) : list callback_handle :=
  match tr with
  | [] => []
  | Callback cb onStop :: rest => cb :: onStop_calls rest
  | _ :: rest => onStop_calls rest
  end.

(** The calls into the legacy HAL in a trace, in order. *)
Fixpoint hal_calls (tr : trace) : list hal_call :=
  match tr with
  | [] => []
  | Hal c :: rest => c :: hal_calls rest
  | _ :: rest => hal_calls rest
  end.

(** The threads created in a trace. *)
Fixpoint threads_created (tr : trace) : nat :=
  match tr with
  | [] => O
  | ThreadCreate :: rest => S (threads_created rest)
  | _ :: rest => threads_created rest
  end.

(** Registering handles one after the other. *)
Fixpoint register_all (regs : list callback_handle) : M unit :=
  match regs with
  | [] => ret tt
  | cb :: rest => registerEventCallback cb ;; register_all rest
  end.

(** The flags are idle outside [STOPPING]. *)
Definition flags_idle (s : WifiHalService) : bool :=
  match state_ s with
  | STOPPING => true
  | _ => both_clear s
  end.

(** The operations on the object. *)
Inductive operation : Type :=
| op_registerEventCallback (cb : callback_handle)
| op_start (init : wifi_error * wifi_handle)
| op_stop
| op_stop_enter
| op_stop_resume
| op_task (t : task)
| op_FinishHalCleanup
| op_DoHalEventLoop_enter
| op_DoHalEventLoop_resume.

Definition perform (op : operation) : M unit :=
  match op with
  | op_registerEventCallback cb => registerEventCallback cb
  | op_start init => start init
  | op_stop => stop
  | op_stop_enter => stop_enter ;; ret tt
  | op_stop_resume => stop_resume
  | op_task t => run_task t
  | op_FinishHalCleanup => FinishHalCleanup
  | op_DoHalEventLoop_enter => DoHalEventLoop_enter
  | op_DoHalEventLoop_resume => DoHalEventLoop_resume
  end.

(** The operations with a path that ends the process without a call
    of a callback: [start] when it assigns to a thread object that owns
    a thread, and the rest of [DoHalEventLoop]. *)
Definition may_abort (op : operation) : bool :=
  match op with
  | op_start _ | op_DoHalEventLoop_resume => true
  | _ => false
  end.

End WifiHal.

(* ================================================================== *)
(** * The service among its threads *)
(* ================================================================== *)

(** The object has no lock.  What keeps its fields from being used by
    two threads at once is [PostTask]: the thread created in [start]
    does not finish the cleanup itself, it hands that to the looper, so
    that it runs on the looper's thread.  The model takes [start],
    [stop] and [registerEventCallback] to be called on that thread too:
    methods and posted tasks run one at a time, each to its end, and
    while [stop] is inside [wifi_cleanup] the thread is busy, so that no
    task runs and no method is called until that call has returned.

    The created thread runs beside it, in [DoHalEventLoop] only.  It
    reads [hal_handle_], which is written before the thread is created,
    and, back from [wifi_event_loop], [state_], which [stop] has set
    before it called [wifi_cleanup] and which changes next when the task
    runs that this thread has yet to post; it writes the thread object
    and the looper's queue.

    A [system] is the object together with where the two threads are; an
    [action] is one of them running up to its next blocking call.
    [WifiHal.completions_overlapping] is what the statements of [stop]
    and of the task do when they run on two threads instead. *)
Module System.

Import FailureReasonUtil WifiHal.
Local Open Scope nat_scope.

Record system : Type := mkSystem {
  svc : WifiHalService;
  (** threads created by [start] that have not called [wifi_event_loop] yet *)
  created : nat;
  (** threads inside [wifi_event_loop] *)
  looping : nat;
  (** a call of [stop] is inside [wifi_cleanup], on the looper's thread *)
  in_cleanup : bool;
  (** the legacy HAL has been asked to clean up since it was last
      initialized *)
  cleanup_requested : bool
}.

Inductive action : Type :=
| CallRegister (cb : callback_handle)
| CallStart (init : wifi_error * wifi_handle)
| CallStop
| CleanupReturns
| ThreadRuns
| EventLoopReturns
| LooperRuns.

Inductive step_result : Type :=
| Next (sys : system) (tr : trace)
| Crash (tr : trace)
| Disabled.

(** The legacy HAL after the calls of a trace: a successful
    [wifi_initialize] gives a fresh instance, [wifi_cleanup] asks it to
    clean up. *)
Definition hal_after (init_ok : bool) (tr : trace) (requested : bool) : bool :=
  fold_left
    (fun r e =>
       match e with
       | Hal wifi_initialize => if init_ok then false else r
       | Hal (wifi_cleanup _) => true
       | _ => r
       end)
    tr requested.

Definition step (a : action) (sys : system) : step_result :=
  match a with
  | CallRegister cb =>
      if in_cleanup sys then Disabled else
      match registerEventCallback cb (svc sys) with
      | Returns _ s tr =>
          Next (mkSystem s (created sys) (looping sys) false
                  (cleanup_requested sys)) tr
      | Aborts tr => Crash tr
      end
  | CallStart init =>
      if in_cleanup sys then Disabled else
      match start init (svc sys) with
      | Returns _ s tr =>
          Next (mkSystem s
                  (created sys + threads_created tr)
                  (looping sys) false
                  (hal_after (fst init =? WIFI_SUCCESS)%Z tr (cleanup_requested sys)))
               tr
      | Aborts tr => Crash tr
      end
  | CallStop =>
      if in_cleanup sys then Disabled else
      match stop_enter (svc sys) with
      | Returns p s tr =>
          Next (mkSystem s (created sys) (looping sys)
                  (match p with InHalCall => true | Finished => false end)
                  (hal_after false tr (cleanup_requested sys)))
               tr
      | Aborts tr => Crash tr
      end
  | CleanupReturns =>
      if in_cleanup sys then
        match stop_resume (svc sys) with
        | Returns _ s tr =>
            Next (mkSystem s (created sys) (looping sys) false
                    (cleanup_requested sys)) tr
        | Aborts tr => Crash tr
        end
      else Disabled
  | ThreadRuns =>
      match created sys with
      | O => Disabled
      | S n =>
          match DoHalEventLoop_enter (svc sys) with
          | Returns _ s tr =>
              Next (mkSystem s n (S (looping sys)) (in_cleanup sys)
                      (cleanup_requested sys)) tr
          | Aborts tr => Crash tr
          end
      end
  | EventLoopReturns =>
      match looping sys with
      | O => Disabled
      | S n =>
          match DoHalEventLoop_resume (svc sys) with
          | Returns _ s tr =>
              Next (mkSystem s (created sys) n (in_cleanup sys)
                      (cleanup_requested sys)) tr
          | Aborts tr => Crash tr
          end
      end
  | LooperRuns =>
      if in_cleanup sys then Disabled else
      match looper_ (svc sys) with
      | [] => Disabled
      | t :: rest =>
          match run_task t (set_looper rest (svc sys)) with
          | Returns _ s tr =>
              Next (mkSystem s (created sys) (looping sys) false
                      (cleanup_requested sys)) tr
          | Aborts tr => Crash tr
          end
      end
  end.

(** The legacy HAL's side of the contract: [wifi_event_loop] returns
    only once [wifi_cleanup] has been called, which [stop] does after it
    has set [state_] to [STOPPING]. *)
Definition hal_permits (a : action) (sys : system) : bool :=
  match a with
  | EventLoopReturns => cleanup_requested sys
  | _ => true
  end.

(** A fresh object: no thread, nothing posted, the HAL not asked to
    clean up. *)
Definition initial (h : wifi_handle) (c e : bool) : system :=
  mkSystem (WifiHalService_ctor [] h c e) 0 0 false false.

(** The systems that runs reach while the legacy HAL keeps its side. *)
Inductive reachable : system -> Prop :=
| reach_initial h c e : reachable (initial h c e)
| reach_step a sys sys' tr :
    reachable sys -> hal_permits a sys = true -> step a sys = Next sys' tr ->
    reachable sys'.

(** A run: the actions taken one after the other, as long as the legacy
    HAL permits them; the result lists, for each action, the system it
    leads to and its trace.  [None] when an action is not enabled or not
    permitted, or the process ends. *)
Fixpoint run (acts : list action) (sys : system)
  : option (list (system * trace)) :=
  match acts with
  | [] => Some []
  | a :: rest =>
      if hal_permits a sys then
        match step a sys with
        | Next sys' tr =>
            match run rest sys' with
            | Some steps => Some ((sys', tr) :: steps)
            | None => None
            end
        | _ => None
        end
      else None
  end.

(** All the ways to merge two sequences of actions, each keeping its
    order. *)
Fixpoint interleavings (l1 : list action) : list action -> list (list action) :=
  fix merge (l2 : list action) : list (list action) :=
    match l1, l2 with
    | [], _ => [l2]
    | _, [] => [l1]
    | x :: r1, y :: r2 =>
        map (cons x) (interleavings r1 l2) ++ map (cons y) (merge r2)
    end.

(** What is left for the thread created by [start] to do: call
    [wifi_event_loop] if it has not yet, and come back from it, which
    posts the task. *)
Definition thread_to_do (sys : system) : list action :=
  match created sys with
  | O => [EventLoopReturns]
  | S _ => [ThreadRuns; EventLoopReturns]
  end.

(** What holds of every system that a run reaches. *)
Definition consistent (sys : system) : Prop :=
  let s := svc sys in
  match state_ s with
  | STOPPED =>
      created sys = 0 /\ looping sys = 0 /\ looper_ s = [] /\
      in_cleanup sys = false /\ event_loop_thread_ s = NotAThread
  | STARTED =>
      created sys + looping sys = 1 /\ looper_ s = [] /\
      in_cleanup sys = false /\ event_loop_thread_ s = Joinable /\
      cleanup_requested sys = false
  | STOPPING =>
      cleanup_requested sys = true /\
      awaiting_hal_cleanup_command_ s = in_cleanup sys /\
      if awaiting_hal_event_loop_termination_ s
      then (created sys + looping sys = 1 /\ looper_ s = [] /\
            event_loop_thread_ s = Joinable) \/
           (created sys + looping sys = 0 /\
            looper_ s = [EventLoopTerminated] /\
            event_loop_thread_ s = NotAThread)
      else created sys + looping sys = 0 /\ looper_ s = [] /\
           event_loop_thread_ s = NotAThread /\ in_cleanup sys = true
  end.

End System.

(* ================================================================== *)
(** * interface_utils.cpp *)
(* ================================================================== *)

Module InterfaceUtils.

Import FailureReasonUtil.

(** The part of the operating system that [set_iface_up] talks to: what
    [socket] returns, the network interfaces with the flags that
    [SIOCGIFFLAGS] reports for them (the [short] that [ifr_flags]
    carries), whether the caller may change flags, and what the kernel
    makes of the flags it is handed.  The flags written are not stored
    as they are: the kernel keeps some bits to itself and derives others
    from the state of the device ([IFF_RUNNING], for one).
    [reports_after old written] is what it reports for an interface
    after a [SIOCSIFFLAGS] that succeeded, from what it reported before
    and what was written, [IFF_UP] apart. *)
Record kernel : Type := mkKernel {
  socket_result : Z;
  interfaces : list (string * Z);
  may_set_flags : bool;
  reports_after : Z -> Z -> Z
}.

Inductive syscall : Type :=
| sys_socket
| sys_ioctl_SIOCGIFFLAGS (name : string)
| sys_ioctl_SIOCSIFFLAGS (name : string) (flags : Z)
| sys_close (fd : Z).

Definition IFNAMSIZ : Z := 16.
Definition IFF_UP : Z := 1.

Fixpoint lookup (name : string) (l : list (string * Z)) : option Z :=
  match l with
  | [] => None
  | (n, f) :: rest => if String.eqb n name then Some f else lookup name rest
  end.

Fixpoint update (name : string) (flags : Z) (l : list (string * Z))
  : list (string * Z) :=
  match l with
  | [] => []
  | (n, f) :: rest =>
      if String.eqb n name then (n, flags) :: rest
      else (n, f) :: update name flags rest
  end.

(** [ioctl(fd, SIOCGIFFLAGS, &ifr)]: the flags of the interface named in
    [ifr], or a failure when there is none of that name. *)
Definition ioctl_SIOCGIFFLAGS (k : kernel) (ifr_name : string) : option Z :=
  lookup ifr_name (interfaces k).

(** Flags with [IFF_UP] set or cleared. *)
Definition put_IFF_UP (up : bool) (flags : Z) : Z :=
  if up then Z.lor flags IFF_UP else Z.land flags (Z.lnot IFF_UP).

(** [ioctl(fd, SIOCSIFFLAGS, &ifr)]: when it succeeds, the interface is
    brought up or down as [IFF_UP] in the flags written says; the other
    flags it then reports are the kernel's. *)
Definition ioctl_SIOCSIFFLAGS (k : kernel) (ifr_name : string) (flags : Z)
  : option kernel :=
  match lookup ifr_name (interfaces k) with
  | Some old =>
      if may_set_flags k
      then
        let up := negb (Z.land flags IFF_UP =? 0) in
        Some (mkKernel (socket_result k)
                (update ifr_name (put_IFF_UP up (reports_after k old flags))
                   (interfaces k))
                (may_set_flags k) (reports_after k))
      else None
  | None => None
  end.

(** Conversion of an [int] to [short]. *)
Definition to_short (z : Z) : Z := (z + 32768) mod 65536 - 32768.

(** [set_iface_up].  [if_name] is a C string, so its characters are
    those before the first NUL.  The result is the returned value, the
    kernel afterwards and the system calls made, in order; the socket is
    closed when [sock] goes out of scope. *)
Definition set_iface_up (if_name : string) (request_up : bool) (k : kernel)
  : bool * kernel * list syscall :=
  let sock := socket_result k in
  if sock <? 0 then (false, k, [sys_socket])
  else
    let name := c_str if_name in
    if Z.of_nat (String.length name) >=? IFNAMSIZ
    then (false, k, [sys_socket; sys_close sock])
    else
      match ioctl_SIOCGIFFLAGS k name with
      | None =>
          (false, k, [sys_socket; sys_ioctl_SIOCGIFFLAGS name; sys_close sock])
      | Some ifr_flags =>
          let currently_up := negb (Z.land ifr_flags IFF_UP =? 0) in
          if Bool.eqb currently_up request_up
          then (true, k,
                [sys_socket; sys_ioctl_SIOCGIFFLAGS name; sys_close sock])
          else
            let ifr_flags' :=
              if request_up
              then to_short (Z.lor ifr_flags IFF_UP)
              else to_short (Z.land ifr_flags (Z.lnot IFF_UP)) in
            match ioctl_SIOCSIFFLAGS k name ifr_flags' with
            | None =>
                (false, k,
                 [sys_socket; sys_ioctl_SIOCGIFFLAGS name;
                  sys_ioctl_SIOCSIFFLAGS name ifr_flags'; sys_close sock])
            | Some k' =>
                (true, k',
                 [sys_socket; sys_ioctl_SIOCGIFFLAGS name;
                  sys_ioctl_SIOCSIFFLAGS name ifr_flags'; sys_close sock])
            end
      end.

Definition kWlan0InterfaceName : string := "wlan0".

Definition set_wifi_iface_up (request_up : bool) (k : kernel) :=
  set_iface_up kWlan0InterfaceName request_up k.

Definition is_SIOCSIFFLAGS (c : syscall) : bool :=
  match c with sys_ioctl_SIOCSIFFLAGS _ _ => true | _ => false end.

(** The interface [name] exists and its [IFF_UP] flag is [up]. *)
Definition iface_is (k : kernel) (name : string) (up : bool) : Prop :=
  exists flags,
    lookup name (interfaces k) = Some flags /\
    negb (Z.land flags IFF_UP =? 0) = up.

End InterfaceUtils.

(* ================================================================== *)
(** * Further definitions on runs and flags *)
(* ================================================================== *)

Module Cycle.
Import WifiHal System.

(** In a sequence of actions, [wifi_event_loop] returns before [stop]
    is called. *)
Fixpoint loop_returns_unasked (acts : list action) : bool :=
  match acts with
  | [] => false
  | CallStop :: _ => false
  | EventLoopReturns :: _ => true
  | _ :: rest => loop_returns_unasked rest
  end.

(** In a sequence of actions, the looper runs a task before
    [wifi_cleanup] has returned. *)
Fixpoint task_runs_inside_stop (acts : list action) : bool :=
  match acts with
  | [] => false
  | CleanupReturns :: _ => false
  | LooperRuns :: _ => true
  | _ :: rest => task_runs_inside_stop rest
  end.

(** One cycle after a successful [start]: [stop] is called and
    [wifi_cleanup] returns, the thread calls [wifi_event_loop] and comes
    back and the looper runs the task, merged in every way. *)
Definition cycles : list (list action) :=
  interleavings [CallStop; CleanupReturns]
    [ThreadRuns; EventLoopReturns; LooperRuns].

(** The system that a cycle leaves: the object stopped, with the handle
    of the cycle, no thread, no task. *)
Definition stopped_again (sys : system) (h : wifi_handle) : system :=
  mkSystem
    (mkService [] (callbacks_ (svc sys)) STOPPED h NotAThread false false)
    0 0 false true.

End Cycle.

Module Calls.
Import WifiHal System.

(** The actions that are calls of the service's methods. *)
Definition is_call (a : action) : bool :=
  match a with
  | CallRegister _ | CallStart _ | CallStop => true
  | _ => false
  end.

(** The set of callbacks after an action. *)
Definition callbacks_after (a : action) (c : StdSet.t) : StdSet.t :=
  match a with
  | CallRegister cb => StdSet.insert cb c
  | _ => c
  end.

(** What follows a [stop] that has called [wifi_cleanup], when a method
    is called before the looper runs the task: [wifi_cleanup] returns
    and then the method is called, the thread does its part beside them,
    in every order, and the looper runs the task last. *)
Definition stopping_with (call : action) (sys : system) : list (list action) :=
  map (fun l => l ++ [LooperRuns])
    (interleavings [CleanupReturns; call] (thread_to_do sys)).

End Calls.

(** The flags that [set_iface_up] hands to [SIOCSIFFLAGS]. *)
Module Flags.
Import InterfaceUtils.

(** The flags that [set_iface_up] writes: [IFF_UP] as requested, the
    other bits as they were. *)
Definition with_IFF_UP (request_up : bool) (flags : Z) : Z :=
  if request_up
  then to_short (Z.lor flags IFF_UP)
  else to_short (Z.land flags (Z.lnot IFF_UP)).

End Flags.

(* ================================================================== *)
(** * securityPatch/includes/common.h *)
(* ================================================================== *)

Module Common.

Definition MAX_TEST_DURATION : Z := 300.
Definition EXIT_VULNERABLE : Z := 113.

(** [time(NULL)] reads the clock; what it returns is the argument [now]
    of the two functions.  A [time_t] is a signed integer whose largest
    value, [TIME_MAX], depends on the target; an addition that goes
    beyond it is undefined, which is [None]. *)
Section TimeT.

Variable TIME_MAX : Z.

(** [[ return time(NULL); ]] *)
Definition start_timer (now : Z) : Z := now.

(** [[ return time(NULL) < (timer_started + MAX_TEST_DURATION); ]] *)
Definition timer_active (now : Z) (timer_started : Z) : option Z :=
  if timer_started + MAX_TEST_DURATION <=? TIME_MAX
  then Some (if now <? timer_started + MAX_TEST_DURATION then 1 else 0)
  else None.

End TimeT.

End Common.

(* ================================================================== *)
(** * Sample inputs *)
(* ================================================================== *)

Module Samples.

Import FailureReasonUtil WifiHal System InterfaceUtils.

(** A description with a NUL character in it: ['a'], NUL, ['b']. *)
Definition description_with_nul : string := String "a" (String NUL "b").

(** An object with two registered callbacks, [3] and [7], used to
    instantiate the statements below. *)
Definition sample_service (st : State) (t : thread) (c e : bool)
  : WifiHalService :=
  mkService [] (StdSet.insert 3 (StdSet.insert 7 StdSet.empty)) st 0 t c e.

(** An object with the null pointer registered beside callback [7]. *)
Definition service_with_null (st : State) (t : thread) (c e : bool)
  : WifiHalService :=
  mkService [] (StdSet.insert null (StdSet.insert 7 StdSet.empty)) st 0 t c e.

(** A started system with one registered callback, whose thread is
    inside [wifi_event_loop]. *)
Definition system_started : system :=
  mkSystem
    (mkService [] (StdSet.insert 7 StdSet.empty) STARTED 5 Joinable false false)
    0 1 false false.

(** A run up to the point where [stop] is inside [wifi_cleanup] and the
    thread inside [wifi_event_loop], and the system it leads to. *)
Definition run_into_cleanup : list action :=
  [CallRegister 7; CallStart (WIFI_SUCCESS, 5); ThreadRuns; CallStop].

Definition system_in_cleanup : system :=
  mkSystem
    (mkService [] (StdSet.insert 7 StdSet.empty) STOPPING 5 Joinable true true)
    0 1 true true.

(** A kernel that reports [IFF_RUNNING] for the interfaces that are up,
    and the other flags as they were written. *)
Definition IFF_RUNNING : Z := 64.

Definition running_when_up (old written : Z) : Z :=
  if Z.odd written
  then Z.lor written IFF_RUNNING
  else Z.land written (Z.lnot IFF_RUNNING).

(** A kernel with the loopback interface and [wlan0], whose flags are
    given. *)
Definition sample_kernel (wlan0_flags : Z) : kernel :=
  mkKernel 3 [("lo", 73); ("wlan0", wlan0_flags)] true running_when_up.

(** A kernel in which no socket can be opened and [wlan0] is up. *)
Definition kernel_without_sockets : kernel :=
  mkKernel (-1) [("wlan0", 1)] true running_when_up.

End Samples.

(* ================================================================== *)
(** * Facts about the definitions *)
(* ================================================================== *)

Module StdSetFacts.
Import StdSet.

(** Two sets with the same elements are the same set. *)
Lemma ext (a b : t) : elements a = elements b -> a = b.
Proof.
  destruct a as [la pa], b as [lb pb]; simpl; intros ->.
  f_equal. apply UIP_dec, bool_dec.
Qed.

Lemma ascending_sorted (l : list key) :
  ascending l = true -> StronglySorted Z.lt l.
Proof.
  induction l as [|x l IH]; intros H; [constructor|].
  pose proof (ascending_tail _ _ H) as Hl. specialize (IH Hl).
  constructor; [exact IH|].
  destruct l as [|y l]; [constructor|].
  simpl in H. apply andb_true_iff in H as [Hxy _]. apply Z.ltb_lt in Hxy.
  inversion IH as [|? ? _ Hall]; subst.
  constructor; [exact Hxy|].
  eapply Forall_impl; [|exact Hall]. intros; simpl in *; lia.
Qed.

Lemma sorted_NoDup (l : list key) : StronglySorted Z.lt l -> NoDup l.
Proof.
  induction 1 as [|x l _ IH Hall]; constructor; [|exact IH].
  intros Hin. rewrite Forall_forall in Hall. specialize (Hall _ Hin). lia.
Qed.

Lemma elements_sorted (s : t) : StronglySorted Z.lt (elements s).
Proof. apply ascending_sorted, ordered. Qed.

Lemma elements_NoDup (s : t) : NoDup (elements s).
Proof. apply sorted_NoDup, elements_sorted. Qed.

Lemma In_insert_ascending (x y : key) (l : list key) :
  In y (insert_ascending x l) <-> y = x \/ In y l.
Proof.
  induction l as [|z l IH]; simpl.
  - intuition congruence.
  - destruct (x <? z) eqn:Hlt; simpl; [intuition congruence|].
    destruct (x =? z) eqn:Heq; simpl.
    + apply Z.eqb_eq in Heq; subst. intuition.
    + rewrite IH. intuition.
Qed.

Lemma In_insert (x y : key) (s : t) :
  In y (elements (insert x s)) <-> y = x \/ In y (elements s).
Proof. apply In_insert_ascending. Qed.

Lemma insert_present (x : key) (l : list key) :
  ascending l = true -> In x l -> insert_ascending x l = l.
Proof.
  induction l as [|z l IH]; intros Hl Hin; [destruct Hin|].
  cbn [insert_ascending].
  pose proof (ascending_sorted _ Hl) as Hs.
  inversion Hs as [|? ? Hs' Hall]; subst. rewrite Forall_forall in Hall.
  destruct Hin as [->|Hin].
  - rewrite Z.ltb_irrefl, Z.eqb_refl. reflexivity.
  - specialize (Hall _ Hin).
    destruct (x <? z) eqn:Hlt; [apply Z.ltb_lt in Hlt; lia|].
    destruct (x =? z) eqn:Heq; [reflexivity|].
    f_equal. apply IH; [exact (ascending_tail _ _ Hl)|exact Hin].
Qed.

(** Inserting a handle that is in the set changes nothing. *)
Lemma insert_idem (x : key) (s : t) :
  In x (elements s) -> insert x s = s.
Proof.
  intros Hin. apply ext. simpl. apply insert_present; [apply ordered|exact Hin].
Qed.

(** Each handle is in the sequence of elements once or not at all. *)
Lemma count_elements (x : key) (s : t) :
  count_occ Z.eq_dec (elements s) x = if mem x s then 1%nat else 0%nat.
Proof.
  unfold mem.
  destruct (existsb (Z.eqb x) (elements s)) eqn:E.
  - apply existsb_exists in E as (y & Hin & Hy). apply Z.eqb_eq in Hy; subst y.
    apply NoDup_count_occ'; [apply elements_NoDup|exact Hin].
  - apply count_occ_not_In. intros Hin.
    assert (existsb (Z.eqb x) (elements s) = true) as E'.
    { apply existsb_exists. exists x. split; [exact Hin|apply Z.eqb_refl]. }
    congruence.
Qed.

(** An ascending sequence is determined by what it contains. *)
Lemma sorted_unique (l1 l2 : list key) :
  StronglySorted Z.lt l1 -> StronglySorted Z.lt l2 ->
  (forall x, In x l1 <-> In x l2) -> l1 = l2.
Proof.
  intros H1; revert l2.
  induction H1 as [|x l1 H1 IH Hall1]; intros l2 H2 Hiff.
  - destruct l2 as [|y l2]; [reflexivity|].
    exfalso. apply (proj2 (Hiff y)). now left.
  - destruct H2 as [|y l2 H2 Hall2].
    + exfalso. apply (proj1 (Hiff x)). now left.
    + rewrite Forall_forall in Hall1, Hall2.
      assert (x = y) as ->.
      { destruct (proj1 (Hiff x) (or_introl eq_refl)) as [->|Hx]; [reflexivity|].
        destruct (proj2 (Hiff y) (or_introl eq_refl)) as [->|Hy]; [reflexivity|].
        specialize (Hall1 _ Hy). specialize (Hall2 _ Hx). lia. }
      f_equal. apply IH; [exact H2|].
      intros z; split; intros Hz.
      * destruct (proj1 (Hiff z) (or_intror Hz)) as [->|Hz']; [|exact Hz'].
        specialize (Hall1 _ Hz). lia.
      * destruct (proj2 (Hiff z) (or_intror Hz)) as [->|Hz']; [|exact Hz'].
        specialize (Hall2 _ Hz). lia.
Qed.

End StdSetFacts.

Module WifiHalFacts.
Import FailureReasonUtil WifiHal.

Lemma c_str_nul_free (s : string) : nul_free s = true -> c_str s = s.
Proof.
  induction s as [|c s IH]; simpl; [reflexivity|].
  destruct (Ascii.eqb c NUL); simpl; [discriminate|].
  intros H; rewrite IH; [reflexivity|exact H].
Qed.

Lemma nul_free_append (a b : string) :
  nul_free (a ++ b) = (nul_free a && nul_free b)%bool.
Proof.
  induction a as [|c a IH]; simpl; [reflexivity|].
  rewrite IH, andb_assoc. reflexivity.
Qed.

Lemma for_each_call n l s :
  for_each l (call n) s =
  if existsb (Z.eqb null) l
  then Aborts (map (fun cb => Callback cb n) (before_null l))
  else Returns tt s (map (fun cb => Callback cb n) l).
Proof.
  induction l as [|cb l IH]; [reflexivity|].
  cbn [for_each existsb before_null map]. unfold bind at 1. unfold call at 1.
  rewrite (Z.eqb_sym null cb).
  destruct (cb =? null); cbn [orb abort emit]; [reflexivity|].
  rewrite IH. destruct (existsb (Z.eqb null) l); reflexivity.
Qed.

Lemma for_callbacks_call n s :
  for_callbacks (call n) s =
  if null_registered s
  then Aborts (broadcast_cut n s)
  else Returns tt s (broadcast n s).
Proof.
  unfold for_callbacks, bind, read. rewrite for_each_call.
  unfold null_registered, StdSet.mem, broadcast_cut, broadcast.
  destruct (existsb _ _); reflexivity.
Qed.

Ltac run_member :=
  repeat first
    [ progress cbv beta iota delta
        [bind read write emit ret abort LOG PostTask assign_new_thread
         detach_thread]
    | progress cbn [app negb andb] ].

(** A broadcast either gets to its end or is ended by the null
    pointer. *)
Ltac run_broadcast s :=
  rewrite for_callbacks_call; unfold null_registered, broadcast_cut, broadcast;
  cbn [callbacks_ set_looper set_callbacks set_state set_hal_handle
       set_event_loop_thread set_awaiting_hal_cleanup_command
       set_awaiting_hal_event_loop_termination];
  destruct (StdSet.mem null (callbacks_ s)); run_member;
  rewrite ?app_nil_r; reflexivity.

(** *** [start], branch by branch *)

Lemma start_STARTED init s :
  state_ s = STARTED ->
  start init s =
  if null_registered s
  then Aborts (broadcast_cut onStart s)
  else Returns tt s (broadcast onStart s).
Proof.
  intros H. unfold start. run_member. rewrite H. run_broadcast s.
Qed.

Lemma start_STOPPING init s :
  state_ s = STOPPING ->
  start init s =
  let failure :=
    onStartFailure (CreateFailureReason NOT_AVAILABLE "HAL is stopping") in
  if null_registered s
  then Aborts (broadcast_cut failure s)
  else Returns tt s (broadcast failure s).
Proof.
  intros H. unfold start. run_member. rewrite H. run_broadcast s.
Qed.

Lemma start_STOPPED_failure init s :
  state_ s = STOPPED -> fst init <> WIFI_SUCCESS ->
  start init s =
  let failure :=
    onStartFailure
      (CreateFailureReasonLegacyError (fst init) "Failed to initialize HAL") in
  let logged :=
    [Log INFO "Initializing HAL"; Hal wifi_initialize;
     Log ERROR "Failed to initialize Wifi HAL"] in
  if null_registered s
  then Aborts (logged ++ broadcast_cut failure s)
  else Returns tt (set_hal_handle (snd init) s) (logged ++ broadcast failure s).
Proof.
  intros H Hs. apply Z.eqb_neq in Hs.
  unfold start. run_member. rewrite H. run_member. rewrite Hs. run_member.
  run_broadcast s.
Qed.

Lemma start_STOPPED_success init s :
  state_ s = STOPPED -> fst init = WIFI_SUCCESS ->
  event_loop_thread_ s = NotAThread ->
  start init s =
  let logged :=
    [Log INFO "Initializing HAL"; Hal wifi_initialize; ThreadCreate] in
  if null_registered s
  then Aborts (logged ++ broadcast_cut onStart s)
  else Returns tt
         (set_state STARTED
            (set_event_loop_thread Joinable (set_hal_handle (snd init) s)))
         (logged ++ broadcast onStart s).
Proof.
  intros H Hs Ht. apply Z.eqb_eq in Hs.
  unfold start. run_member. rewrite H. run_member. rewrite Hs. run_member.
  cbn [event_loop_thread_ set_hal_handle]. rewrite Ht. run_member.
  run_broadcast s.
Qed.

Lemma start_STOPPED_terminate init s :
  state_ s = STOPPED -> fst init = WIFI_SUCCESS ->
  event_loop_thread_ s = Joinable ->
  start init s =
  Aborts [Log INFO "Initializing HAL"; Hal wifi_initialize; ThreadCreate].
Proof.
  intros H Hs Ht. apply Z.eqb_eq in Hs.
  unfold start. run_member. rewrite H. run_member. rewrite Hs. run_member.
  cbn [event_loop_thread_ set_hal_handle]. rewrite Ht. run_member.
  reflexivity.
Qed.

(** *** [FinishHalCleanup] and the two functions that end in it *)

Lemma FinishHalCleanup_eq s :
  FinishHalCleanup s =
  if both_clear s
  then if null_registered s
       then Aborts (Log INFO "HAL cleanup complete" :: broadcast_cut onStop s)
       else Returns tt (set_state STOPPED s)
              (Log INFO "HAL cleanup complete" :: broadcast onStop s)
  else Returns tt s [].
Proof.
  unfold FinishHalCleanup, both_clear. run_member.
  destruct (negb _ && negb _)%bool; run_member; [|reflexivity].
  run_broadcast s.
Qed.

Lemma stop_resume_eq s :
  stop_resume s =
  let s1 := set_awaiting_hal_cleanup_command false s in
  let logged :=
    [Log VERBOSE "HAL cleanup command complete";
     Log INFO "HAL cleanup complete"] in
  if awaiting_hal_event_loop_termination_ s
  then Returns tt s1 [Log VERBOSE "HAL cleanup command complete"]
  else if null_registered s
       then Aborts (logged ++ broadcast_cut onStop s)
       else Returns tt (set_state STOPPED s1) (logged ++ broadcast onStop s).
Proof.
  unfold stop_resume. run_member. rewrite FinishHalCleanup_eq.
  unfold both_clear, null_registered, broadcast_cut, broadcast.
  cbn [set_awaiting_hal_cleanup_command awaiting_hal_cleanup_command_
    awaiting_hal_event_loop_termination_ callbacks_].
  destruct (awaiting_hal_event_loop_termination_ s); [reflexivity|].
  cbn [negb andb]. destruct (StdSet.mem null (callbacks_ s)); reflexivity.
Qed.

Lemma run_task_eq s :
  run_task EventLoopTerminated s =
  let s1 := set_awaiting_hal_event_loop_termination false s in
  if awaiting_hal_cleanup_command_ s
  then Returns tt s1 []
  else if null_registered s
       then Aborts (Log INFO "HAL cleanup complete" :: broadcast_cut onStop s)
       else Returns tt (set_state STOPPED s1)
              (Log INFO "HAL cleanup complete" :: broadcast onStop s).
Proof.
  unfold run_task. run_member. rewrite FinishHalCleanup_eq.
  unfold both_clear, null_registered, broadcast_cut, broadcast.
  cbn [set_awaiting_hal_event_loop_termination awaiting_hal_cleanup_command_
    awaiting_hal_event_loop_termination_ callbacks_].
  destruct (awaiting_hal_cleanup_command_ s); [reflexivity|].
  cbn [negb andb]. destruct (StdSet.mem null (callbacks_ s)); reflexivity.
Qed.

(** The two completions are their first statements followed by
    [FinishHalCleanup]. *)
Lemma stop_resume_statements s :
  stop_resume s = (stop_resume_clear ;; FinishHalCleanup)%hal s.
Proof.
  unfold stop_resume, stop_resume_clear. run_member.
  destruct (FinishHalCleanup _); reflexivity.
Qed.

Lemma run_task_statements t s :
  run_task t s = (run_task_clear t ;; FinishHalCleanup)%hal s.
Proof. destruct t. reflexivity. Qed.

(** *** [stop] *)

Lemma stop_enter_STOPPED s :
  state_ s = STOPPED ->
  stop_enter s =
  if null_registered s
  then Aborts (broadcast_cut onStop s)
  else Returns Finished s (broadcast onStop s).
Proof.
  intros H. unfold stop_enter. run_member. rewrite H. run_member.
  run_broadcast s.
Qed.

Lemma stop_enter_STOPPING s :
  state_ s = STOPPING -> stop_enter s = Returns Finished s [].
Proof.
  intros H. unfold stop_enter. run_member. rewrite H. reflexivity.
Qed.

Lemma stop_enter_STARTED s :
  state_ s = STARTED ->
  stop_enter s =
  Returns InHalCall
    (set_state STOPPING
       (set_awaiting_hal_event_loop_termination true
          (set_awaiting_hal_cleanup_command true s)))
    [Log INFO "Cleaning up HAL"; Hal (wifi_cleanup (hal_handle_ s))].
Proof.
  intros H. unfold stop_enter. run_member. rewrite H. run_member. reflexivity.
Qed.

Lemma stop_STOPPED s :
  state_ s = STOPPED ->
  stop s =
  if null_registered s
  then Aborts (broadcast_cut onStop s)
  else Returns tt s (broadcast onStop s).
Proof.
  intros H. unfold stop. unfold bind. rewrite (stop_enter_STOPPED _ H).
  destruct (null_registered s); [reflexivity|].
  cbn. rewrite app_nil_r. reflexivity.
Qed.

Lemma stop_STOPPING s :
  state_ s = STOPPING -> stop s = Returns tt s [].
Proof.
  intros H. unfold stop. unfold bind. rewrite (stop_enter_STOPPING _ H).
  reflexivity.
Qed.

Lemma stop_STARTED s :
  state_ s = STARTED ->
  stop s =
  Returns tt
    (set_awaiting_hal_cleanup_command false
       (set_state STOPPING
          (set_awaiting_hal_event_loop_termination true
             (set_awaiting_hal_cleanup_command true s))))
    [Log INFO "Cleaning up HAL"; Hal (wifi_cleanup (hal_handle_ s));
     Log VERBOSE "HAL cleanup command complete"].
Proof.
  intros H. unfold stop. unfold bind. rewrite (stop_enter_STARTED _ H).
  rewrite stop_resume_eq. reflexivity.
Qed.

(** *** [DoHalEventLoop] *)

Lemma DoHalEventLoop_enter_eq s :
  DoHalEventLoop_enter s =
  Returns tt s [Log VERBOSE "Starting HAL event loop";
                Hal (wifi_event_loop (hal_handle_ s))].
Proof. reflexivity. Qed.

Lemma DoHalEventLoop_resume_fatal s :
  state_ s <> STOPPING ->
  DoHalEventLoop_resume s =
  Aborts [Log FATAL "HAL event loop terminated, but HAL was not stopping"].
Proof.
  intros H. unfold DoHalEventLoop_resume. run_member.
  destruct (state_ s); try congruence; reflexivity.
Qed.

Lemma DoHalEventLoop_resume_STOPPING s :
  state_ s = STOPPING -> event_loop_thread_ s = Joinable ->
  DoHalEventLoop_resume s =
  Returns tt
    (set_looper (looper_ s ++ [EventLoopTerminated])
       (set_event_loop_thread NotAThread s))
    [Log VERBOSE "HAL Event loop terminated"; ThreadDetach].
Proof.
  intros H Ht. unfold DoHalEventLoop_resume. run_member. rewrite H.
  cbn [State_eqb negb]. run_member. rewrite Ht. run_member. reflexivity.
Qed.

Lemma isStarted_eq s :
  isStarted s =
  Returns (match state_ s with STOPPED => false | _ => true end) s [].
Proof.
  unfold isStarted. run_member. destruct (state_ s); reflexivity.
Qed.

Lemma registerEventCallback_eq cb s :
  registerEventCallback cb s =
  Returns tt (set_callbacks (StdSet.insert cb (callbacks_ s)) s) [].
Proof. reflexivity. Qed.

(** *** The flags are idle outside STOPPING *)

Lemma perform_keeps_flags_idle (op : operation) (s : WifiHalService) :
  flags_idle s = true ->
  match perform op s with
  | Returns _ s' _ => flags_idle s' = true
  | Aborts _ => may_abort op = true \/ null_registered s = true
  end.
Proof.
  intros Hidle. unfold flags_idle, both_clear in *.
  destruct op; cbn [perform may_abort].
  - rewrite registerEventCallback_eq. exact Hidle.
  - destruct (state_ s) eqn:Hst.
    + destruct (Z.eq_dec (fst init) WIFI_SUCCESS) as [Hok|Hko].
      * destruct (event_loop_thread_ s) eqn:Ht.
        -- rewrite (start_STOPPED_success _ _ Hst Hok Ht). cbv zeta.
           destruct (null_registered s); [now left|exact Hidle].
        -- rewrite (start_STOPPED_terminate _ _ Hst Hok Ht). now left.
      * rewrite (start_STOPPED_failure _ _ Hst Hko). cbv zeta.
        destruct (null_registered s); [now left|].
        cbn. rewrite Hst. exact Hidle.
    + rewrite (start_STARTED _ _ Hst).
      destruct (null_registered s); [now left|]. rewrite Hst. exact Hidle.
    + rewrite (start_STOPPING _ _ Hst). cbv zeta.
      destruct (null_registered s); [now left|]. rewrite Hst. reflexivity.
  - destruct (state_ s) eqn:Hst.
    + rewrite (stop_STOPPED _ Hst).
      destruct (null_registered s); [now right|]. rewrite Hst. exact Hidle.
    + rewrite (stop_STARTED _ Hst). reflexivity.
    + rewrite (stop_STOPPING _ Hst), Hst. reflexivity.
  - unfold bind. destruct (state_ s) eqn:Hst.
    + rewrite (stop_enter_STOPPED _ Hst).
      destruct (null_registered s); [now right|].
      cbn. rewrite Hst. exact Hidle.
    + rewrite (stop_enter_STARTED _ Hst). reflexivity.
    + rewrite (stop_enter_STOPPING _ Hst). cbn. rewrite Hst. reflexivity.
  - rewrite stop_resume_eq. cbv zeta.
    destruct (awaiting_hal_event_loop_termination_ s) eqn:He; cbn.
    + rewrite He. destruct (state_ s); try reflexivity;
        rewrite andb_false_r in Hidle; discriminate.
    + destruct (null_registered s); [now right|]. cbn. rewrite He. reflexivity.
  - destruct t. rewrite run_task_eq. cbv zeta.
    destruct (awaiting_hal_cleanup_command_ s) eqn:Hc; cbn.
    + rewrite Hc. destruct (state_ s); try reflexivity; discriminate.
    + destruct (null_registered s); [now right|]. cbn. rewrite Hc. reflexivity.
  - rewrite FinishHalCleanup_eq. unfold both_clear.
    destruct (negb (awaiting_hal_cleanup_command_ s)
              && negb (awaiting_hal_event_loop_termination_ s))%bool eqn:Hb;
      cbn.
    + destruct (null_registered s); [now right|]. cbn. exact Hb.
    + destruct (state_ s); [discriminate Hidle|discriminate Hidle|reflexivity].
  - rewrite DoHalEventLoop_enter_eq. exact Hidle.
  - destruct (state_ s) eqn:Hst.
    + rewrite DoHalEventLoop_resume_fatal by congruence. now left.
    + rewrite DoHalEventLoop_resume_fatal by congruence. now left.
    + destruct (event_loop_thread_ s) eqn:Ht.
      * unfold DoHalEventLoop_resume. run_member. rewrite Hst.
        cbn [State_eqb negb]. run_member. rewrite Ht. now left.
      * rewrite (DoHalEventLoop_resume_STOPPING _ Hst Ht). cbn.
        rewrite Hst. reflexivity.
Qed.

Lemma stopped_only_with_flags_clear
    (op : operation) (s s' : WifiHalService) (tr : trace) :
  perform op s = Returns tt s' tr ->
  state_ s = STOPPING ->
  state_ s' = STOPPED ->
  awaiting_hal_cleanup_command_ s' = false
  /\ awaiting_hal_event_loop_termination_ s' = false.
Proof.
  intros Hrun Hst Hst'.
  destruct op; cbn [perform] in Hrun.
  - rewrite registerEventCallback_eq in Hrun. injection Hrun as <- _.
    cbn in Hst'. congruence.
  - rewrite (start_STOPPING _ _ Hst) in Hrun. cbv zeta in Hrun.
    destruct (null_registered s); [discriminate|].
    injection Hrun as <- _. congruence.
  - rewrite (stop_STOPPING _ Hst) in Hrun. injection Hrun as <- _.
    congruence.
  - unfold bind in Hrun. rewrite (stop_enter_STOPPING _ Hst) in Hrun.
    injection Hrun as <- _. congruence.
  - rewrite stop_resume_eq in Hrun. cbv zeta in Hrun.
    destruct (awaiting_hal_event_loop_termination_ s) eqn:He;
      [|destruct (null_registered s); [discriminate|]];
      injection Hrun as <- _; cbn in *; [congruence|auto].
  - destruct t. rewrite run_task_eq in Hrun. cbv zeta in Hrun.
    destruct (awaiting_hal_cleanup_command_ s) eqn:Hc;
      [|destruct (null_registered s); [discriminate|]];
      injection Hrun as <- _; cbn in *; [congruence|auto].
  - rewrite FinishHalCleanup_eq in Hrun. unfold both_clear in Hrun.
    destruct (awaiting_hal_cleanup_command_ s) eqn:Hc,
             (awaiting_hal_event_loop_termination_ s) eqn:He;
      cbn [negb andb] in Hrun;
      try (destruct (null_registered s); [discriminate|]);
      injection Hrun as <- _; cbn in *; try congruence; auto.
  - rewrite DoHalEventLoop_enter_eq in Hrun. injection Hrun as <- _.
    congruence.
  - destruct (event_loop_thread_ s) eqn:Ht.
    + unfold DoHalEventLoop_resume in Hrun. revert Hrun. run_member.
      rewrite Hst. cbn [State_eqb negb]. run_member. rewrite Ht.
      discriminate.
    + rewrite (DoHalEventLoop_resume_STOPPING _ Hst Ht) in Hrun.
      injection Hrun as <- _. cbn in Hst'. congruence.
Qed.

(** *** Member functions one after the other on a given object *)

(** The null pointer is not registered. *)
Ltac no_null :=
  repeat match goal with
         | H : StdSet.mem null _ = false |- _ => rewrite H
         end.

Ltac normalize_member :=
  cbv beta iota zeta delta
    [bind looper_runs read write ret
     looper_ callbacks_ state_ hal_handle_ event_loop_thread_
     awaiting_hal_cleanup_command_ awaiting_hal_event_loop_termination_
     set_looper set_callbacks set_state set_hal_handle
     set_event_loop_thread set_awaiting_hal_cleanup_command
     set_awaiting_hal_event_loop_termination app null_registered];
  no_null.

Ltac exec_member :=
  repeat
    (normalize_member;
     first [ rewrite stop_enter_STARTED by reflexivity
           | rewrite stop_resume_eq
           | rewrite run_task_eq
           | rewrite DoHalEventLoop_resume_STOPPING by reflexivity ]);
  normalize_member.

End WifiHalFacts.

Module TraceFacts.
Import FailureReasonUtil WifiHal WifiHalFacts.

Lemma received_app cb t1 t2 :
  received cb (t1 ++ t2) = received cb t1 ++ received cb t2.
Proof.
  induction t1 as [|e t1 IH]; [reflexivity|].
  destruct e; simpl; rewrite ?IH; try reflexivity.
  destruct (cb0 =? cb); simpl; rewrite ?IH; reflexivity.
Qed.

Lemma received_map cb n l :
  received cb (map (fun c => Callback c n) l) =
  repeat n (count_occ Z.eq_dec l cb).
Proof.
  induction l as [|c l IH]; [reflexivity|].
  simpl. destruct (Z.eq_dec c cb) as [->|Hne].
  - rewrite Z.eqb_refl. simpl. now rewrite IH.
  - apply Z.eqb_neq in Hne. now rewrite Hne.
Qed.

(** In a broadcast a registered callback receives the notification
    once, and any other handle receives nothing. *)
Lemma received_broadcast cb n s :
  received cb (broadcast n s) =
  if StdSet.mem cb (callbacks_ s) then [n] else [].
Proof.
  unfold broadcast. rewrite received_map, StdSetFacts.count_elements.
  destruct (StdSet.mem cb (callbacks_ s)); reflexivity.
Qed.

Lemma invoked_broadcast n s :
  invoked (broadcast n s) = StdSet.elements (callbacks_ s).
Proof.
  unfold broadcast. generalize (StdSet.elements (callbacks_ s)).
  intros l; induction l as [|c l IH]; simpl; [reflexivity|now f_equal].
Qed.

Lemma invoked_broadcast_cut n s :
  invoked (broadcast_cut n s) = before_null (StdSet.elements (callbacks_ s)).
Proof.
  unfold broadcast_cut. generalize (before_null (StdSet.elements (callbacks_ s))).
  intros l; induction l as [|c l IH]; simpl; [reflexivity|now f_equal].
Qed.

(** In an ascending list with the null pointer in it, what comes
    before the null pointer is below it. *)
Lemma before_null_below l :
  StronglySorted Z.lt l -> existsb (Z.eqb null) l = true ->
  Forall (fun cb => cb < null) (before_null l).
Proof.
  induction 1 as [|cb l Hs IH Hall]; cbn [before_null existsb]; [constructor|].
  rewrite (Z.eqb_sym null cb).
  destruct (cb =? null) eqn:Hcb; [constructor|]. cbn [orb]. intros Hin.
  constructor; [|exact (IH Hin)].
  apply existsb_exists in Hin as (x & Hx & Heq).
  apply Z.eqb_eq in Heq. subst x.
  rewrite Forall_forall in Hall. exact (Hall _ Hx).
Qed.

Lemma onStop_calls_broadcast s :
  onStop_calls (broadcast onStop s) = StdSet.elements (callbacks_ s).
Proof.
  unfold broadcast. generalize (StdSet.elements (callbacks_ s)).
  intros l; induction l as [|c l IH]; simpl; [reflexivity|now f_equal].
Qed.

Lemma onStop_calls_app t1 t2 :
  onStop_calls (t1 ++ t2) = onStop_calls t1 ++ onStop_calls t2.
Proof.
  induction t1 as [|e t1 IH]; [reflexivity|].
  destruct e; simpl; rewrite ?IH; try reflexivity.
  destruct n; simpl; rewrite ?IH; reflexivity.
Qed.

Lemma hal_calls_app t1 t2 :
  hal_calls (t1 ++ t2) = hal_calls t1 ++ hal_calls t2.
Proof.
  induction t1 as [|e t1 IH]; [reflexivity|].
  destruct e; simpl; rewrite ?IH; reflexivity.
Qed.

Lemma hal_calls_broadcast n s : hal_calls (broadcast n s) = [].
Proof.
  unfold broadcast.
  induction (StdSet.elements (callbacks_ s)); simpl; auto.
Qed.

Lemma threads_created_app t1 t2 :
  threads_created (t1 ++ t2) = (threads_created t1 + threads_created t2)%nat.
Proof.
  induction t1 as [|e t1 IH]; [reflexivity|].
  destruct e; simpl; rewrite IH; reflexivity.
Qed.

Lemma no_thread_in_broadcast n s : threads_created (broadcast n s) = 0%nat.
Proof.
  unfold broadcast. induction (StdSet.elements (callbacks_ s)); simpl; auto.
Qed.

End TraceFacts.

Module SystemFacts.
Import FailureReasonUtil WifiHal WifiHalFacts TraceFacts System.
Local Open Scope nat_scope.

Lemma hal_after_broadcast b n s r : hal_after b (broadcast n s) r = r.
Proof.
  unfold broadcast, hal_after.
  induction (StdSet.elements (callbacks_ s)); simpl; auto.
Qed.

Lemma hal_after_app b t1 t2 r :
  hal_after b (t1 ++ t2) r = hal_after b t2 (hal_after b t1 r).
Proof. apply fold_left_app. Qed.

Lemma consistent_initial h c e : consistent (initial h c e).
Proof. unfold consistent; cbn. auto. Qed.

Ltac crunch :=
  repeat match goal with
         | H : _ /\ _ |- _ => destruct H
         | H : Next _ _ = Next _ _ |- _ => injection H as <- <-
         | H : Crash _ = Next _ _ |- _ => discriminate H
         | H : Disabled = Next _ _ |- _ => discriminate H
         end.

Ltac tidy :=
  cbn;
  rewrite ?threads_created_app, ?hal_after_app, ?no_thread_in_broadcast,
    ?hal_after_broadcast;
  cbn.

Lemma consistent_step a sys sys' tr :
  consistent sys -> hal_permits a sys = true -> step a sys = Next sys' tr ->
  consistent sys'.
Proof.
  destruct sys as [s cr lo ic rq]. unfold consistent, hal_permits.
  cbn [svc created looping in_cleanup cleanup_requested].
  intros Hc Hp Hstep.
  destruct a; cbn [step svc created looping in_cleanup cleanup_requested] in Hstep.
  - (* registerEventCallback *)
    destruct ic; [discriminate|].
    rewrite registerEventCallback_eq in Hstep. crunch. exact Hc.
  - (* start *)
    destruct ic; [discriminate|].
    destruct (state_ s) eqn:Hst.
    + destruct (Z.eq_dec (fst init) WIFI_SUCCESS) as [Hok|Hko].
      * crunch.
        match goal with H : event_loop_thread_ s = _ |- _ =>
          rewrite (start_STOPPED_success _ _ Hst Hok H) in Hstep end.
        cbv zeta in Hstep. destruct (null_registered s); [discriminate|].
        crunch. tidy.
        apply Z.eqb_eq in Hok. rewrite Hok. subst.
        repeat split; auto.
      * rewrite (start_STOPPED_failure _ _ Hst Hko) in Hstep.
        cbv zeta in Hstep. destruct (null_registered s); [discriminate|].
        crunch.
        tidy. rewrite Hst. apply Z.eqb_neq in Hko. rewrite ?Hko. subst.
        repeat split; auto.
    + rewrite (start_STARTED _ _ Hst) in Hstep.
      destruct (null_registered s); [discriminate|]. crunch.
      tidy. rewrite Hst, Nat.add_0_r. repeat split; auto.
    + rewrite (start_STOPPING _ _ Hst) in Hstep. cbv zeta in Hstep.
      destruct (null_registered s); [discriminate|]. crunch.
      tidy. rewrite Hst, Nat.add_0_r. repeat split; auto.
  - (* stop *)
    destruct ic; [discriminate|].
    destruct (state_ s) eqn:Hst.
    + rewrite (stop_enter_STOPPED _ Hst) in Hstep.
      destruct (null_registered s); [discriminate|]. crunch.
      tidy. rewrite Hst. repeat split; auto.
    + rewrite (stop_enter_STARTED _ Hst) in Hstep. crunch.
      tidy. repeat split; auto.
    + rewrite (stop_enter_STOPPING _ Hst) in Hstep. crunch.
      tidy. rewrite Hst. repeat split; auto.
  - (* wifi_cleanup returns *)
    destruct ic; [|discriminate].
    rewrite stop_resume_eq in Hstep.
    destruct (state_ s) eqn:Hst; crunch; try congruence.
    cbv zeta in Hstep.
    destruct (awaiting_hal_event_loop_termination_ s) eqn:He;
      [|destruct (null_registered s); [discriminate|]]; crunch.
    + tidy. rewrite Hst, He. repeat split; auto.
    + tidy. repeat split; auto; lia.
  - (* the thread calls wifi_event_loop *)
    destruct cr as [|cr]; [discriminate|].
    rewrite DoHalEventLoop_enter_eq in Hstep. crunch. tidy.
    destruct (state_ s); crunch; repeat split; auto; try lia.
    destruct (awaiting_hal_event_loop_termination_ s); crunch.
    + match goal with H : _ \/ _ |- _ => destruct H; crunch end;
        [left; repeat split; auto; lia | lia].
    + lia.
  - (* wifi_event_loop returns *)
    destruct lo as [|lo]; [discriminate|].
    destruct (state_ s) eqn:Hst; crunch; try lia; try congruence.
    destruct (awaiting_hal_event_loop_termination_ s) eqn:He; crunch; [|lia].
    match goal with H : _ \/ _ |- _ => destruct H; crunch end; [|lia].
    match goal with H : event_loop_thread_ s = _ |- _ =>
      rewrite (DoHalEventLoop_resume_STOPPING _ Hst H) in Hstep end.
    crunch. tidy. rewrite Hst, He.
    match goal with H : looper_ s = _ |- _ => rewrite H end.
    repeat split; auto. right. repeat split; auto. lia.
  - (* the looper handles a message *)
    destruct ic; [discriminate|].
    destruct (looper_ s) as [|t q] eqn:Hq; [discriminate|].
    destruct t. rewrite run_task_eq in Hstep. cbv zeta in Hstep.
    cbn [set_looper awaiting_hal_cleanup_command_] in Hstep.
    destruct (state_ s) eqn:Hst; crunch; try congruence.
    destruct (awaiting_hal_event_loop_termination_ s) eqn:He; crunch;
      [|discriminate].
    match goal with H : _ \/ _ |- _ => destruct H; crunch end;
      [discriminate|].
    match goal with H : _ :: _ = _ |- _ => injection H as -> end.
    destruct (awaiting_hal_cleanup_command_ s) eqn:Hcl; [congruence|].
    unfold null_registered in Hstep. cbn [callbacks_ set_looper] in Hstep.
    destruct (StdSet.mem null (callbacks_ s)); [discriminate|].
    crunch; tidy.
    repeat split; auto; lia.
Qed.

Lemma reachable_consistent sys : reachable sys -> consistent sys.
Proof.
  induction 1 as [h c e|a sys sys' tr _ IH Hp Hs].
  - apply consistent_initial.
  - exact (consistent_step _ _ _ _ IH Hp Hs).
Qed.

End SystemFacts.

Module RegistrationFacts.
Import WifiHal WifiHalFacts StdSet.

Lemma mem_insert (cb x : key) (c : t) :
  mem cb (insert x c) = ((cb =? x) || mem cb c)%bool.
Proof.
  unfold mem, insert; cbn [elements].
  induction (elements c) as [|y l IH]; cbn [insert_ascending existsb].
  - reflexivity.
  - destruct (x <? y) eqn:Hlt; [reflexivity|].
    destruct (x =? y) eqn:Heq.
    + apply Z.eqb_eq in Heq; subst y. cbn [existsb].
      now rewrite orb_assoc, orb_diag.
    + cbn [existsb]. rewrite IH.
      rewrite !orb_assoc. f_equal. apply orb_comm.
Qed.

(** The set after registering the handles of [regs] in that order. *)
Lemma register_all_eq (regs : list callback_handle) (s : WifiHalService) :
  register_all regs s =
  Returns tt
    (set_callbacks (fold_left (fun c cb => insert cb c) regs (callbacks_ s)) s)
    [].
Proof.
  revert s; induction regs as [|cb regs IH]; intros s.
  - destruct s; reflexivity.
  - cbn [register_all]. unfold bind. rewrite registerEventCallback_eq, IH.
    reflexivity.
Qed.

Lemma mem_fold_insert (cb : key) (regs : list key) (c : t) :
  mem cb (fold_left (fun c x => insert x c) regs c) =
  (existsb (Z.eqb cb) regs || mem cb c)%bool.
Proof.
  revert c; induction regs as [|x regs IH]; intros c; [reflexivity|].
  cbn [fold_left existsb]. rewrite IH, mem_insert.
  rewrite !orb_assoc. f_equal. apply orb_comm.
Qed.

Lemma In_fold_insert (cb : key) (regs : list key) (c : t) :
  In cb (elements (fold_left (fun c x => insert x c) regs c)) <->
  In cb regs \/ In cb (elements c).
Proof.
  revert c; induction regs as [|x regs IH]; intros c.
  - cbn. tauto.
  - cbn [fold_left]. rewrite IH, StdSetFacts.In_insert. cbn [In].
    intuition congruence.
Qed.

(** The set, and with it the order of a broadcast, depends on which
    handles were registered and not on the order they were registered
    in. *)
Lemma registration_order_irrelevant (regs regs' : list key) (c : t) :
  (forall cb, In cb regs <-> In cb regs') ->
  fold_left (fun c x => insert x c) regs c =
  fold_left (fun c x => insert x c) regs' c.
Proof.
  intros Hsame. apply StdSetFacts.ext.
  apply StdSetFacts.sorted_unique; try apply StdSetFacts.elements_sorted.
  intros cb. rewrite !In_fold_insert, Hsame. reflexivity.
Qed.

End RegistrationFacts.

Module RunFacts.
Import FailureReasonUtil WifiHal WifiHalFacts TraceFacts System SystemFacts.

(** Every system along a run from a reachable system is reachable. *)
Lemma run_reachable acts : forall sys steps,
  reachable sys -> run acts sys = Some steps ->
  Forall (fun p => reachable (fst p)) steps.
Proof.
  induction acts as [|a acts IH]; intros sys steps Hreach Hrun.
  - injection Hrun as <-. constructor.
  - cbn [run] in Hrun.
    destruct (hal_permits a sys) eqn:Hp; [|discriminate].
    destruct (step a sys) as [sys1 tr1| |] eqn:Hstep; try discriminate.
    destruct (run acts sys1) as [rest|] eqn:Hrest; [|discriminate].
    injection Hrun as <-.
    assert (reachable sys1) as Hreach1 by (eapply reach_step; eauto).
    constructor; [exact Hreach1|]. exact (IH _ _ Hreach1 Hrest).
Qed.

Lemma run_last_reachable acts sys steps sys' tr :
  reachable sys -> run acts sys = Some (steps ++ [(sys', tr)]) ->
  reachable sys'.
Proof.
  intros Hreach Hrun.
  pose proof (run_reachable _ _ _ Hreach Hrun) as Hall.
  apply Forall_app in Hall as [_ Hlast].
  inversion Hlast; subst. assumption.
Qed.

(** No permitted action ends the process in a reachable system in
    which the null pointer is not registered. *)
Lemma reachable_no_crash sys a tr :
  reachable sys -> hal_permits a sys = true ->
  null_registered (svc sys) = false ->
  step a sys <> Crash tr.
Proof.
  intros Hreach Hp Hnn. apply reachable_consistent in Hreach.
  destruct sys as [s cr lo ic rq]. unfold consistent in Hreach.
  cbn [svc created looping in_cleanup cleanup_requested hal_permits] in *.
  destruct a; cbn [step svc created looping in_cleanup cleanup_requested].
  - destruct ic; [discriminate|].
    rewrite registerEventCallback_eq. discriminate.
  - destruct ic; [discriminate|].
    destruct (state_ s) eqn:Hst.
    + destruct Hreach as (_ & _ & _ & _ & Ht).
      destruct (Z.eq_dec (fst init) WIFI_SUCCESS) as [Hok|Hko].
      * rewrite (start_STOPPED_success _ _ Hst Hok Ht), Hnn. discriminate.
      * rewrite (start_STOPPED_failure _ _ Hst Hko), Hnn. discriminate.
    + rewrite (start_STARTED _ _ Hst), Hnn. discriminate.
    + rewrite (start_STOPPING _ _ Hst), Hnn. discriminate.
  - destruct ic; [discriminate|].
    destruct (state_ s) eqn:Hst.
    + rewrite (stop_enter_STOPPED _ Hst), Hnn. discriminate.
    + rewrite (stop_enter_STARTED _ Hst). discriminate.
    + rewrite (stop_enter_STOPPING _ Hst). discriminate.
  - destruct ic; [|discriminate]. rewrite stop_resume_eq, Hnn. cbv zeta.
    destruct (awaiting_hal_event_loop_termination_ s); discriminate.
  - destruct cr; [discriminate|]. rewrite DoHalEventLoop_enter_eq.
    discriminate.
  - destruct lo as [|lo]; [discriminate|].
    cbn [hal_permits cleanup_requested] in Hp. subst rq.
    destruct (state_ s) eqn:Hst.
    + destruct Hreach as (_ & Hlo & _). discriminate Hlo.
    + destruct Hreach as (_ & _ & _ & _ & Hrq). discriminate Hrq.
    + destruct Hreach as (_ & _ & Hev).
      destruct (awaiting_hal_event_loop_termination_ s).
      * destruct Hev as [(_ & _ & Ht)|(Hn & _)]; [|lia].
        rewrite (DoHalEventLoop_resume_STOPPING _ Hst Ht). discriminate.
      * destruct Hev as (Hn & _). lia.
  - destruct ic; [discriminate|].
    destruct (looper_ s) as [|t q]; [discriminate|]. destruct t.
    rewrite run_task_eq. cbv zeta.
    change (null_registered (set_looper q s)) with (null_registered s).
    rewrite Hnn. cbn [set_looper awaiting_hal_cleanup_command_].
    destruct (awaiting_hal_cleanup_command_ s); discriminate.
Qed.

(** Every action keeps the flags idle outside STOPPING, and so does a
    run from an object whose flags are false at first. *)
Lemma step_keeps_flags_idle a sys sys' tr :
  flags_idle (svc sys) = true -> step a sys = Next sys' tr ->
  flags_idle (svc sys') = true.
Proof.
  intros Hidle Hstep.
  destruct a; cbn [step] in Hstep.
  - destruct (in_cleanup sys); [discriminate|].
    pose proof (perform_keeps_flags_idle (op_registerEventCallback cb) _ Hidle)
      as Hop. cbn [perform] in Hop.
    destruct (registerEventCallback cb (svc sys)); [|discriminate].
    injection Hstep as <- _. exact Hop.
  - destruct (in_cleanup sys); [discriminate|].
    pose proof (perform_keeps_flags_idle (op_start init) _ Hidle) as Hop.
    cbn [perform] in Hop.
    destruct (start init (svc sys)); [|discriminate].
    injection Hstep as <- _. exact Hop.
  - destruct (in_cleanup sys); [discriminate|].
    pose proof (perform_keeps_flags_idle op_stop_enter _ Hidle) as Hop.
    cbn [perform] in Hop. unfold bind in Hop.
    destruct (stop_enter (svc sys)); [|discriminate].
    injection Hstep as <- _. exact Hop.
  - destruct (in_cleanup sys); [|discriminate].
    pose proof (perform_keeps_flags_idle op_stop_resume _ Hidle) as Hop.
    cbn [perform] in Hop.
    destruct (stop_resume (svc sys)); [|discriminate].
    injection Hstep as <- _. exact Hop.
  - destruct (created sys); [discriminate|].
    pose proof (perform_keeps_flags_idle op_DoHalEventLoop_enter _ Hidle)
      as Hop. cbn [perform] in Hop.
    destruct (DoHalEventLoop_enter (svc sys)); [|discriminate].
    injection Hstep as <- _. exact Hop.
  - destruct (looping sys); [discriminate|].
    pose proof (perform_keeps_flags_idle op_DoHalEventLoop_resume _ Hidle)
      as Hop. cbn [perform] in Hop.
    destruct (DoHalEventLoop_resume (svc sys)); [|discriminate].
    injection Hstep as <- _. exact Hop.
  - destruct (in_cleanup sys); [discriminate|].
    destruct (looper_ (svc sys)) as [|t q]; [discriminate|].
    pose proof (perform_keeps_flags_idle (op_task t) (set_looper q (svc sys))
                  Hidle) as Hop. cbn [perform] in Hop.
    destruct (run_task t (set_looper q (svc sys))); [|discriminate].
    injection Hstep as <- _. exact Hop.
Qed.

Lemma run_keeps_flags_idle acts : forall sys steps,
  flags_idle (svc sys) = true -> run acts sys = Some steps ->
  Forall (fun p => flags_idle (svc (fst p)) = true) steps.
Proof.
  induction acts as [|a acts IH]; intros sys steps Hidle Hrun.
  - injection Hrun as <-. constructor.
  - cbn [run] in Hrun.
    destruct (hal_permits a sys); [|discriminate].
    destruct (step a sys) as [sys1 tr1| |] eqn:Hstep; try discriminate.
    destruct (run acts sys1) as [rest|] eqn:Hrest; [|discriminate].
    injection Hrun as <-.
    pose proof (step_keeps_flags_idle _ _ _ _ Hidle Hstep) as Hidle1.
    constructor; [exact Hidle1|]. exact (IH _ _ Hidle1 Hrest).
Qed.

(** There is at most one thread, and none in state STOPPED. *)
Lemma reachable_one_thread sys :
  reachable sys ->
  (created sys + looping sys <= 1)%nat
  /\ (state_ (svc sys) = STOPPED -> (created sys + looping sys = 0)%nat).
Proof.
  intros Hreach. apply reachable_consistent in Hreach.
  unfold consistent in Hreach.
  destruct (state_ (svc sys)).
  - destruct Hreach as (-> & -> & _). split; [lia|reflexivity].
  - destruct Hreach as (-> & _). split; [lia|discriminate].
  - destruct Hreach as (_ & _ & Hev). split; [|discriminate].
    destruct (awaiting_hal_event_loop_termination_ (svc sys));
      [destruct Hev as [(-> & _)|(-> & _)]|destruct Hev as (-> & _)]; lia.
Qed.

(** When the HAL lets [wifi_event_loop] return in a reachable system,
    the state is STOPPING. *)
Lemma reachable_event_loop_return sys :
  reachable sys -> hal_permits EventLoopReturns sys = true ->
  (0 < looping sys)%nat ->
  state_ (svc sys) = STOPPING.
Proof.
  intros Hreach Hp Hlo. apply reachable_consistent in Hreach.
  destruct sys as [s cr lo ic rq]. unfold consistent in Hreach.
  cbn [svc created looping in_cleanup cleanup_requested hal_permits] in *.
  destruct (state_ s) eqn:Hst; [| |reflexivity].
  - destruct Hreach as (_ & Hz & _). lia.
  - destruct Hreach as (_ & _ & _ & _ & Hrq). congruence.
Qed.

(** When the HAL lets [wifi_event_loop] return in a reachable system,
    [DoHalEventLoop] goes on. *)
Lemma reachable_event_loop_goes_on sys :
  reachable sys -> hal_permits EventLoopReturns sys = true ->
  (0 < looping sys)%nat ->
  exists sys' tr, step EventLoopReturns sys = Next sys' tr.
Proof.
  intros Hreach Hp Hlo.
  pose proof (reachable_event_loop_return sys Hreach Hp Hlo) as Hst.
  apply reachable_consistent in Hreach.
  destruct sys as [s cr lo ic rq]. unfold consistent in Hreach.
  cbn [svc created looping in_cleanup cleanup_requested hal_permits] in *.
  rewrite Hst in Hreach. destruct Hreach as (_ & _ & Hev).
  destruct lo as [|lo]; [lia|]. cbn [step svc looping].
  destruct (awaiting_hal_event_loop_termination_ s).
  - destruct Hev as [(_ & _ & Ht)|(Hn & _)]; [|lia].
    rewrite (DoHalEventLoop_resume_STOPPING _ Hst Ht). eauto.
  - destruct Hev as (Hn & _). lia.
Qed.

End RunFacts.


Module InterfaceUtilsFacts.
Import FailureReasonUtil InterfaceUtils.

(** Whatever else happens, an interface that is as requested is not
    written to: no [SIOCSIFFLAGS] is made and the kernel stays as it
    is. *)
Lemma set_iface_up_as_requested_frame if_name request_up k :
  iface_is k (c_str if_name) request_up ->
  snd (fst (set_iface_up if_name request_up k)) = k
  /\ filter is_SIOCSIFFLAGS (snd (set_iface_up if_name request_up k)) = [].
Proof.
  intros (flags & Hlook & Hup). unfold set_iface_up.
  destruct (socket_result k <? 0); [split; reflexivity|].
  destruct (Z.of_nat (String.length (c_str if_name)) >=? IFNAMSIZ);
    [split; reflexivity|].
  unfold ioctl_SIOCGIFFLAGS. rewrite Hlook, Hup, Bool.eqb_reflx.
  split; reflexivity.
Qed.

(** An interface that is down and asked to be up: the flags written
    are those read with [IFF_UP] set; the kernel of the sample then
    reports [IFF_RUNNING] too. *)
Example set_iface_up_sets_flag :
  set_iface_up "wlan0" true (Samples.sample_kernel 4098)
  = (true, Samples.sample_kernel 4163,
     [sys_socket; sys_ioctl_SIOCGIFFLAGS "wlan0";
      sys_ioctl_SIOCSIFFLAGS "wlan0" 4099; sys_close 3]).
Proof. reflexivity. Qed.

End InterfaceUtilsFacts.

Module NotificationFacts.
Import WifiHal TraceFacts.

(** What a callback can find in a broadcast is the notification that
    was broadcast. *)
Lemma In_received_broadcast cb n m s :
  In m (received cb (broadcast n s)) -> m = n.
Proof.
  rewrite received_broadcast.
  destruct (StdSet.mem cb (callbacks_ s)); cbn; intuition.
Qed.

End NotificationFacts.

Module HalCallFacts.
Import FailureReasonUtil WifiHal WifiHalFacts TraceFacts System.




End HalCallFacts.

Module CycleFacts.
Import FailureReasonUtil WifiHal WifiHalFacts TraceFacts System SystemFacts Cycle.

Lemma run_step a rest sys :
  run (a :: rest) sys =
  if hal_permits a sys then
    match step a sys with
    | Next sys' tr =>
        match run rest sys' with
        | Some steps => Some ((sys', tr) :: steps)
        | None => None
        end
    | _ => None
    end
  else None.
Proof. reflexivity. Qed.

(** The actions, each by its equation, on a system whose looper's
    thread is free. *)
Lemma step_CallStart_success h s cr lo rq :
  state_ s = STOPPED ->
  event_loop_thread_ s = NotAThread ->
  step (CallStart (WIFI_SUCCESS, h)) (mkSystem s cr lo false rq) =
  let logged :=
    [Log INFO "Initializing HAL"; Hal wifi_initialize; ThreadCreate] in
  if null_registered s
  then Crash (logged ++ broadcast_cut onStart s)
  else Next
         (mkSystem
            (set_state STARTED
               (set_event_loop_thread Joinable (set_hal_handle h s)))
            (S cr) lo false false)
         (logged ++ broadcast onStart s).
Proof.
  intros Hst Ht. cbn [step svc created looping in_cleanup cleanup_requested].
  rewrite (start_STOPPED_success (WIFI_SUCCESS, h) _ Hst eq_refl Ht).
  cbv zeta. destruct (null_registered s); [reflexivity|].
  rewrite threads_created_app, no_thread_in_broadcast.
  rewrite hal_after_app, hal_after_broadcast.
  cbn [threads_created Nat.add]. rewrite Nat.add_1_r. reflexivity.
Qed.

End CycleFacts.

Module CallFacts.
Import FailureReasonUtil WifiHal WifiHalFacts TraceFacts System SystemFacts Calls CycleFacts.

Lemma step_CallStart_STOPPING init s cr lo rq :
  state_ s = STOPPING ->
  step (CallStart init) (mkSystem s cr lo false rq) =
  let failure :=
    onStartFailure (CreateFailureReason NOT_AVAILABLE "HAL is stopping") in
  if null_registered s
  then Crash (broadcast_cut failure s)
  else Next (mkSystem s cr lo false rq) (broadcast failure s).
Proof.
  intros Hst. cbn [step svc created looping in_cleanup cleanup_requested].
  rewrite (start_STOPPING _ _ Hst). cbv zeta.
  destruct (null_registered s); [reflexivity|].
  rewrite no_thread_in_broadcast, hal_after_broadcast, Nat.add_0_r.
  reflexivity.
Qed.

Lemma step_CallStop_STOPPING s cr lo rq :
  state_ s = STOPPING ->
  step CallStop (mkSystem s cr lo false rq) = Next (mkSystem s cr lo false rq) [].
Proof.
  intros Hst. cbn [step svc in_cleanup]. rewrite (stop_enter_STOPPING _ Hst).
  reflexivity.
Qed.

Lemma step_CallRegister cb s cr lo rq :
  step (CallRegister cb) (mkSystem s cr lo false rq) =
  Next (mkSystem (set_callbacks (StdSet.insert cb (callbacks_ s)) s)
          cr lo false rq)
       [].
Proof. reflexivity. Qed.

Lemma onStop_calls_other n s :
  n <> onStop -> onStop_calls (broadcast n s) = [].
Proof.
  intros Hn. unfold broadcast. generalize (StdSet.elements (callbacks_ s)).
  intros l; induction l as [|c l IH]; [reflexivity|].
  cbn. destruct n; congruence.
Qed.

Lemma step_CallStop_STARTED s cr lo rq :
  state_ s = STARTED ->
  step CallStop (mkSystem s cr lo false rq) =
  Next
    (mkSystem
       (set_state STOPPING
          (set_awaiting_hal_event_loop_termination true
             (set_awaiting_hal_cleanup_command true s)))
       cr lo true true)
    [Log INFO "Cleaning up HAL"; Hal (wifi_cleanup (hal_handle_ s))].
Proof.
  intros Hst. cbn [step svc in_cleanup]. rewrite (stop_enter_STARTED _ Hst).
  reflexivity.
Qed.

Lemma step_CleanupReturns s cr lo rq :
  step CleanupReturns (mkSystem s cr lo true rq) =
  let logged :=
    [Log VERBOSE "HAL cleanup command complete";
     Log INFO "HAL cleanup complete"] in
  if awaiting_hal_event_loop_termination_ s
  then Next (mkSystem (set_awaiting_hal_cleanup_command false s) cr lo false rq)
         [Log VERBOSE "HAL cleanup command complete"]
  else if null_registered s
       then Crash (logged ++ broadcast_cut onStop s)
       else Next
              (mkSystem
                 (set_state STOPPED (set_awaiting_hal_cleanup_command false s))
                 cr lo false rq)
              (logged ++ broadcast onStop s).
Proof.
  cbn [step svc in_cleanup]. rewrite stop_resume_eq. cbv zeta.
  destruct (awaiting_hal_event_loop_termination_ s); [reflexivity|].
  destruct (null_registered s); reflexivity.
Qed.

Lemma step_ThreadRuns s n lo ic rq :
  step ThreadRuns (mkSystem s (S n) lo ic rq) =
  Next (mkSystem s n (S lo) ic rq)
    [Log VERBOSE "Starting HAL event loop";
     Hal (wifi_event_loop (hal_handle_ s))].
Proof. reflexivity. Qed.

Lemma step_EventLoopReturns_STOPPING s cr n ic rq :
  state_ s = STOPPING -> event_loop_thread_ s = Joinable ->
  step EventLoopReturns (mkSystem s cr (S n) ic rq) =
  Next
    (mkSystem
       (set_looper (looper_ s ++ [EventLoopTerminated])
          (set_event_loop_thread NotAThread s))
       cr n ic rq)
    [Log VERBOSE "HAL Event loop terminated"; ThreadDetach].
Proof.
  intros Hst Ht. cbn [step svc looping].
  rewrite (DoHalEventLoop_resume_STOPPING _ Hst Ht). reflexivity.
Qed.

Lemma step_LooperRuns q cbs st h th c e cr lo rq :
  step LooperRuns
    (mkSystem (mkService (EventLoopTerminated :: q) cbs st h th c e)
       cr lo false rq) =
  if c
  then Next (mkSystem (mkService q cbs st h th c false) cr lo false rq) []
  else if StdSet.mem null cbs
       then Crash (Log INFO "HAL cleanup complete"
                   :: broadcast_cut onStop (mkService q cbs st h th c e))
       else Next (mkSystem (mkService q cbs STOPPED h th c false) cr lo false rq)
              (Log INFO "HAL cleanup complete"
               :: broadcast onStop (mkService q cbs st h th c e)).
Proof.
  cbn [step svc looper_ in_cleanup]. rewrite run_task_eq. cbv zeta.
  cbn [set_looper awaiting_hal_cleanup_command_]. destruct c; [reflexivity|].
  unfold null_registered. cbn [callbacks_ set_looper].
  destruct (StdSet.mem null cbs); reflexivity.
Qed.

(** The actions that the looper's thread cannot take while [stop] is
    inside [wifi_cleanup]. *)
Lemma step_in_cleanup a s cr lo rq :
  match a with
  | CallRegister _ | CallStart _ | CallStop | LooperRuns => True
  | _ => False
  end ->
  step a (mkSystem s cr lo true rq) = Disabled.
Proof. destruct a; intros H; try contradiction; reflexivity. Qed.

Ltac normalize_calls :=
  cbv beta iota zeta delta
    [hal_permits svc created looping in_cleanup cleanup_requested
     looper_ callbacks_ state_ hal_handle_ event_loop_thread_
     awaiting_hal_cleanup_command_ awaiting_hal_event_loop_termination_
     set_looper set_callbacks set_state set_hal_handle
     set_event_loop_thread set_awaiting_hal_cleanup_command
     set_awaiting_hal_event_loop_termination app callbacks_after
     null_registered].

(** One action at a time, each by its equation. *)
Ltac exec_calls :=
  repeat
    (rewrite run_step; normalize_calls;
     first [ rewrite step_in_cleanup by exact I
           | rewrite step_CallStart_STOPPING by reflexivity
           | rewrite step_CallStop_STOPPING by reflexivity
           | rewrite step_CallRegister
           | rewrite step_CallStop_STARTED by reflexivity
           | rewrite step_CleanupReturns
           | rewrite step_ThreadRuns
           | rewrite step_EventLoopReturns_STOPPING by reflexivity
           | rewrite step_LooperRuns ];
     normalize_calls; no_null);
  cbv beta iota zeta delta [run]; normalize_calls.

End CallFacts.

Module CStringFacts.
Import FailureReasonUtil.

Lemma c_str_is_nul_free (s : string) : nul_free (c_str s) = true.
Proof.
  induction s as [|c s IH]; [reflexivity|].
  cbn [c_str]. destruct (Ascii.eqb c NUL) eqn:E; [reflexivity|].
  cbn [nul_free]. rewrite E, IH. reflexivity.
Qed.

(** What follows the first NUL is lost, and so is anything appended. *)
Lemma c_str_append_cut (a b : string) :
  nul_free a = false -> c_str (a ++ b) = c_str a.
Proof.
  induction a as [|c a IH]; [discriminate|].
  cbn [nul_free append c_str].
  destruct (Ascii.eqb c NUL); [reflexivity|].
  cbn [negb andb]. intros H. now rewrite IH.
Qed.

End CStringFacts.

Module FlagFacts.
Import InterfaceUtils Flags.

(** The test of [IFF_UP] reads the lowest bit. *)
Lemma iff_up_odd (flags : Z) :
  negb (Z.land flags IFF_UP =? 0) = Z.odd flags.
Proof.
  unfold IFF_UP. change 1 with (Z.ones 1).
  rewrite Z.land_ones by lia. change (2 ^ 1) with 2.
  rewrite Zmod_odd. destruct (Z.odd flags); reflexivity.
Qed.

Lemma to_short_odd (z : Z) : Z.odd (to_short z) = Z.odd z.
Proof.
  unfold to_short. rewrite Z.mod_eq by lia.
  replace (z + 32768 - 65536 * ((z + 32768) / 65536) - 32768)
    with (z + 2 * (- (32768 * ((z + 32768) / 65536)))) by lia.
  apply Z.odd_add_mul_2.
Qed.

Lemma to_short_in_range (z : Z) :
  -32768 <= z <= 32767 -> to_short z = z.
Proof.
  intros Hz. unfold to_short.
  rewrite Z.mod_small by lia. lia.
Qed.

(** Setting the lowest bit adds one to an even number. *)
Lemma lor_1 (f : Z) : Z.lor f 1 = if Z.odd f then f else f + 1.
Proof.
  destruct (Z.odd f) eqn:Hodd.
  - apply Z.bits_inj'. intros n Hn. rewrite Z.lor_spec.
    destruct (Z.eq_dec n 0) as [->|Hne].
    + rewrite Z.bit0_odd, Hodd. reflexivity.
    + rewrite (Z.bits_above_log2 1 n) by (cbn; lia).
      apply orb_false_r.
  - assert (Z.land f 1 = 0) as Hland.
    { change 1 with (Z.ones 1). rewrite Z.land_ones by lia.
      change (2 ^ 1) with 2. rewrite Zmod_odd, Hodd. reflexivity. }
    rewrite <- (Z.lxor_lor f 1 Hland). symmetry.
    apply Z.add_nocarry_lxor. exact Hland.
Qed.

(** Clearing the lowest bit takes one from an odd number. *)
Lemma land_lnot_1 (f : Z) :
  Z.land f (Z.lnot 1) = if Z.odd f then f - 1 else f.
Proof.
  change (Z.land f (Z.lnot 1)) with (Z.ldiff f 1). 
  destruct (Z.odd f) eqn:Hodd.
  - symmetry. apply Z.sub_nocarry_ldiff.
    apply Z.bits_inj'. intros n Hn. rewrite Z.ldiff_spec, Z.bits_0.
    destruct (Z.eq_dec n 0) as [->|Hne].
    + rewrite !Z.bit0_odd, Hodd. reflexivity.
    + rewrite (Z.bits_above_log2 1 n) by (cbn; lia). reflexivity.
  - apply Z.bits_inj'. intros n Hn. rewrite Z.ldiff_spec.
    destruct (Z.eq_dec n 0) as [->|Hne].
    + rewrite !Z.bit0_odd, Hodd. reflexivity.
    + rewrite (Z.bits_above_log2 1 n) by (cbn; lia). apply andb_true_r.
Qed.

Lemma put_IFF_UP_odd up flags : Z.odd (put_IFF_UP up flags) = up.
Proof.
  unfold put_IFF_UP, IFF_UP. destruct up.
  - rewrite lor_1. destruct (Z.odd flags) eqn:H; [exact H|].
    rewrite Z.odd_add, H. reflexivity.
  - rewrite land_lnot_1. destruct (Z.odd flags) eqn:H; [|exact H].
    rewrite Z.odd_sub, H. reflexivity.
Qed.

Lemma with_IFF_UP_odd request_up flags :
  Z.odd (with_IFF_UP request_up flags) = request_up.
Proof.
  unfold with_IFF_UP, IFF_UP. destruct request_up; rewrite to_short_odd.
  - rewrite lor_1. destruct (Z.odd flags) eqn:H; [exact H|].
    rewrite Z.odd_add, H. reflexivity.
  - rewrite land_lnot_1. destruct (Z.odd flags) eqn:H; [|exact H].
    rewrite Z.odd_sub, H. reflexivity.
Qed.

Lemma with_IFF_UP_bits request_up flags i :
  -32768 <= flags <= 32767 -> 0 < i ->
  Z.testbit (with_IFF_UP request_up flags) i = Z.testbit flags i.
Proof.
  intros Hrange Hi. unfold with_IFF_UP, IFF_UP.
  assert (Z.testbit 1 i = false) as H1
    by (apply Z.bits_above_log2; cbn; lia).
  destruct request_up.
  - rewrite to_short_in_range.
    + rewrite Z.lor_spec, H1. apply orb_false_r.
    + rewrite lor_1. destruct (Z.odd flags) eqn:Hodd; [lia|].
      assert (flags <> 32767) by (intros ->; discriminate Hodd). lia.
  - rewrite to_short_in_range.
    + rewrite Z.land_spec, Z.lnot_spec by lia. rewrite H1. apply andb_true_r.
    + rewrite land_lnot_1. destruct (Z.odd flags) eqn:Hodd; [|lia].
      assert (flags <> -32768) by (intros ->; discriminate Hodd). lia.
Qed.

End FlagFacts.

Module KernelFacts.
Import FailureReasonUtil InterfaceUtils Flags FlagFacts.

Lemma lookup_update_same name flags l :
  lookup name l <> None -> lookup name (update name flags l) = Some flags.
Proof.
  induction l as [|[n f] l IH]; cbn; [congruence|].
  destruct (String.eqb n name) eqn:E; cbn; rewrite E; [reflexivity|].
  exact IH.
Qed.

Lemma lookup_update_other name other flags l :
  other <> name -> lookup other (update name flags l) = lookup other l.
Proof.
  intros Hne. induction l as [|[n f] l IH]; cbn; [reflexivity|].
  destruct (String.eqb n name) eqn:E; cbn.
  - apply String.eqb_eq in E; subst n.
    destruct (String.eqb name other) eqn:E'; [|reflexivity].
    apply String.eqb_eq in E'. congruence.
  - destruct (String.eqb n other); [reflexivity|exact IH].
Qed.

Lemma names_update name flags l :
  map fst (update name flags l) = map fst l.
Proof.
  induction l as [|[n f] l IH]; cbn; [reflexivity|].
  destruct (String.eqb n name); cbn; [reflexivity|]. now rewrite IH.
Qed.

(** [set_iface_up], path by path. *)
Inductive path (if_name : string) (request_up : bool) (k : kernel)
  : bool * kernel * list syscall -> Prop :=
| path_no_socket :
    socket_result k < 0 ->
    path if_name request_up k (false, k, [sys_socket])
| path_long_name :
    0 <= socket_result k ->
    IFNAMSIZ <= Z.of_nat (String.length (c_str if_name)) ->
    path if_name request_up k
      (false, k, [sys_socket; sys_close (socket_result k)])
| path_no_interface :
    0 <= socket_result k ->
    Z.of_nat (String.length (c_str if_name)) < IFNAMSIZ ->
    lookup (c_str if_name) (interfaces k) = None ->
    path if_name request_up k
      (false, k,
       [sys_socket; sys_ioctl_SIOCGIFFLAGS (c_str if_name);
        sys_close (socket_result k)])
| path_as_requested flags :
    0 <= socket_result k ->
    Z.of_nat (String.length (c_str if_name)) < IFNAMSIZ ->
    lookup (c_str if_name) (interfaces k) = Some flags ->
    Z.odd flags = request_up ->
    path if_name request_up k
      (true, k,
       [sys_socket; sys_ioctl_SIOCGIFFLAGS (c_str if_name);
        sys_close (socket_result k)])
| path_refused flags :
    0 <= socket_result k ->
    Z.of_nat (String.length (c_str if_name)) < IFNAMSIZ ->
    lookup (c_str if_name) (interfaces k) = Some flags ->
    Z.odd flags <> request_up ->
    may_set_flags k = false ->
    path if_name request_up k
      (false, k,
       [sys_socket; sys_ioctl_SIOCGIFFLAGS (c_str if_name);
        sys_ioctl_SIOCSIFFLAGS (c_str if_name) (with_IFF_UP request_up flags);
        sys_close (socket_result k)])
| path_set flags :
    0 <= socket_result k ->
    Z.of_nat (String.length (c_str if_name)) < IFNAMSIZ ->
    lookup (c_str if_name) (interfaces k) = Some flags ->
    Z.odd flags <> request_up ->
    may_set_flags k = true ->
    path if_name request_up k
      (true,
       mkKernel (socket_result k)
         (update (c_str if_name)
            (put_IFF_UP request_up
               (reports_after k flags (with_IFF_UP request_up flags)))
            (interfaces k))
         (may_set_flags k) (reports_after k),
       [sys_socket; sys_ioctl_SIOCGIFFLAGS (c_str if_name);
        sys_ioctl_SIOCSIFFLAGS (c_str if_name) (with_IFF_UP request_up flags);
        sys_close (socket_result k)]).

Lemma set_iface_up_path if_name request_up k :
  path if_name request_up k (set_iface_up if_name request_up k).
Proof.
  unfold set_iface_up.
  destruct (socket_result k <? 0) eqn:Hs.
  { apply Z.ltb_lt in Hs. now constructor. }
  apply Z.ltb_ge in Hs.
  destruct (Z.of_nat (String.length (c_str if_name)) >=? IFNAMSIZ) eqn:Hl.
  { apply Z.geb_le in Hl. now constructor. }
  assert (Z.of_nat (String.length (c_str if_name)) < IFNAMSIZ) as Hl'.
  { destruct (Z.geb_spec (Z.of_nat (String.length (c_str if_name))) IFNAMSIZ);
      [discriminate|lia]. }
  unfold ioctl_SIOCGIFFLAGS.
  destruct (lookup (c_str if_name) (interfaces k)) as [flags|] eqn:Hlook.
  2: { now constructor. }
  rewrite iff_up_odd.
  destruct (Bool.eqb (Z.odd flags) request_up) eqn:Heq.
  { apply Bool.eqb_prop in Heq. now apply path_as_requested with flags. }
  assert (Z.odd flags <> request_up) as Hne.
  { intros H. rewrite H, Bool.eqb_reflx in Heq. discriminate. }
  unfold ioctl_SIOCSIFFLAGS. rewrite Hlook.
  fold (with_IFF_UP request_up flags).
  destruct (may_set_flags k) eqn:Hm.
  - cbv zeta. rewrite iff_up_odd, with_IFF_UP_odd.
    rewrite <- Hm at 2. now apply path_set.
  - now apply path_refused.
Qed.

End KernelFacts.

Module SetIfaceFacts.
Import FailureReasonUtil InterfaceUtils Flags FlagFacts KernelFacts.

Lemma set_iface_up_as_requested if_name request_up k flags :
  0 <= socket_result k ->
  Z.of_nat (String.length (c_str if_name)) < IFNAMSIZ ->
  lookup (c_str if_name) (interfaces k) = Some flags ->
  Z.odd flags = request_up ->
  set_iface_up if_name request_up k
  = (true, k,
     [sys_socket; sys_ioctl_SIOCGIFFLAGS (c_str if_name);
      sys_close (socket_result k)]).
Proof.
  intros Hs Hl Hlook Hodd. unfold set_iface_up.
  destruct (socket_result k <? 0) eqn:Hneg; [apply Z.ltb_lt in Hneg; lia|].
  destruct (Z.of_nat (String.length (c_str if_name)) >=? IFNAMSIZ) eqn:Hge;
    [apply Z.geb_le in Hge; lia|].
  unfold ioctl_SIOCGIFFLAGS. rewrite Hlook, iff_up_odd, Hodd.
  rewrite Bool.eqb_reflx. reflexivity.
Qed.

(** Whatever the path, only the flags of the named interface can
    differ afterwards. *)
Lemma set_iface_up_frame if_name request_up k :
  let k' := snd (fst (set_iface_up if_name request_up k)) in
  socket_result k' = socket_result k
  /\ may_set_flags k' = may_set_flags k
  /\ map fst (interfaces k') = map fst (interfaces k)
  /\ (forall other, other <> c_str if_name ->
        lookup other (interfaces k') = lookup other (interfaces k))
  /\ reports_after k' = reports_after k.
Proof.
  destruct (set_iface_up_path if_name request_up k); cbn;
    repeat split; auto using names_update.
  intros other Hne. now apply lookup_update_other.
Qed.

End SetIfaceFacts.

(* ================================================================== *)
(** * The properties of the specification *)
(* ================================================================== *)

Import FailureReasonUtil WifiHal WifiHalFacts TraceFacts.
Import System SystemFacts RunFacts InterfaceUtils Samples.

(** ** The two completions of [stop] *)

Lemma system_started_reachable : reachable system_started.
Proof.
  eapply (run_last_reachable
            [CallRegister 7; CallStart (WIFI_SUCCESS, 5); ThreadRuns]
            (initial 0 false false) [_; _]); [apply reach_initial|].
  reflexivity.
Qed.

(** C1, as stated, fails: nothing makes the check of the two flags and
    the broadcast one step.  When the two completions run on two threads
    and overlap ([stop] clears its flag, the task clears its own and
    calls [FinishHalCleanup], and then [stop] calls [FinishHalCleanup]),
    both calls find the two flags false, and the callback receives
    [onStop] twice. *)
Lemma stop_completions_overlapping_broadcast_twice :
  (stop_enter ;; DoHalEventLoop_resume ;; completions_overlapping)%hal
    (svc system_started)
  = Returns tt
      (mkService [] (StdSet.insert 7 StdSet.empty) STOPPED 5 NotAThread
         false false)
      [Log INFO "Cleaning up HAL"; Hal (wifi_cleanup 5);
       Log VERBOSE "HAL Event loop terminated"; ThreadDetach;
       Log VERBOSE "HAL cleanup command complete";
       Log INFO "HAL cleanup complete"; Callback 7 onStop;
       Log INFO "HAL cleanup complete"; Callback 7 onStop]
  /\ received 7
       (trace_of
          ((stop_enter ;; DoHalEventLoop_resume ;; completions_overlapping)%hal
             (svc system_started)))
     = [onStop; onStop]
  /\ reachable system_started
  /\ null_registered (svc system_started) = false
  /\ (forall s, stop_resume s = (stop_resume_clear ;; FinishHalCleanup)%hal s)
  /\ (forall t s,
        run_task t s = (run_task_clear t ;; FinishHalCleanup)%hal s).
Proof.
  split; [reflexivity|]. split; [reflexivity|].
  split; [exact system_started_reachable|]. split; [reflexivity|].
  split; [exact stop_resume_statements | exact run_task_statements].
Qed.

(** C1 (amended): take a run that has reached STARTED, with no null
    pointer registered, and let [stop] be called.  What is left then is
    the rest of [stop], once [wifi_cleanup] has returned, and the task
    that the thread posts when it comes back from [wifi_event_loop].
    When these two run one after the other, each to its end, then in
    either order ([wifi_cleanup] returns before the task runs, or the
    task runs before [wifi_cleanup] returns) the object ends in state
    STOPPED with both flags false, no thread and no pending task, and
    [onStop] is invoked once on every registered callback, at the very
    end.  (On the looper's thread they do run one after the other, the
    task after [stop] has returned.)  After the first of the two
    alone the state is still STOPPING, a flag is still set and no
    callback has been invoked, so it is the second that broadcasts.
    [FinishHalCleanup] does nothing while a flag is set. *)
Theorem stop_completions_broadcast_onStop_once (sys : system) :
  reachable sys ->
  state_ (svc sys) = STARTED ->
  null_registered (svc sys) = false ->
  let s := svc sys in
  let stopped :=
    mkService [] (callbacks_ s) STOPPED (hal_handle_ s) NotAThread false false in
  let cleanup_called :=
    [Log INFO "Cleaning up HAL"; Hal (wifi_cleanup (hal_handle_ s))] in
  let cleanup_returned := [Log VERBOSE "HAL cleanup command complete"] in
  let loop_returned :=
    [Log VERBOSE "HAL Event loop terminated"; ThreadDetach] in
  let finished := Log INFO "HAL cleanup complete" :: broadcast onStop s in
  (stop_enter ;; stop_resume ;; DoHalEventLoop_resume ;; looper_runs)%hal s
    = Returns tt stopped
        (cleanup_called ++ cleanup_returned ++ loop_returned ++ finished)
  /\ (stop_enter ;; DoHalEventLoop_resume ;; stop_resume ;; looper_runs)%hal s
     = Returns tt stopped
         (cleanup_called ++ loop_returned ++ cleanup_returned ++ finished)
  /\ (stop_enter ;; DoHalEventLoop_resume ;; looper_runs ;; stop_resume)%hal s
     = Returns tt stopped
         (cleanup_called ++ loop_returned ++ cleanup_returned ++ finished)
  /\ onStop_calls finished = StdSet.elements (callbacks_ s)
  /\ (forall cb,
        received cb finished =
        if StdSet.mem cb (callbacks_ s) then [onStop] else [])
  /\ (exists s1 tr1,
        (stop_enter ;; stop_resume)%hal s = Returns tt s1 tr1
        /\ state_ s1 = STOPPING /\ both_clear s1 = false /\ invoked tr1 = [])
  /\ (exists s1 tr1,
        (stop_enter ;; DoHalEventLoop_resume ;; looper_runs)%hal s
        = Returns tt s1 tr1
        /\ state_ s1 = STOPPING /\ both_clear s1 = false /\ invoked tr1 = [])
  /\ (forall x : WifiHalService,
        both_clear x = false -> FinishHalCleanup x = Returns tt x []).
Proof.
  intros Hreach Hst Hnn.
  apply reachable_consistent in Hreach.
  destruct sys as [s cr lo ic rq]. unfold consistent in Hreach.
  cbn [svc created looping in_cleanup cleanup_requested] in *.
  rewrite Hst in Hreach. destruct Hreach as (_ & Hq & _ & Ht & _).
  destruct s as [q cbs st h th c e].
  unfold null_registered in Hnn.
  cbn [looper_ state_ event_loop_thread_ callbacks_ hal_handle_] in *.
  subst q st th. cbv zeta.
  split; [exec_member; reflexivity|].
  split; [exec_member; reflexivity|].
  split; [exec_member; reflexivity|].
  split; [cbn [onStop_calls]; apply onStop_calls_broadcast|].
  split; [intros cb; cbn [received]; apply received_broadcast|].
  split; [eexists _, _; exec_member; repeat split; reflexivity|].
  split; [eexists _, _; exec_member; repeat split; reflexivity|].
  intros x Hx. rewrite FinishHalCleanup_eq, Hx. reflexivity.
Qed.

Lemma stop_completions_broadcast_onStop_once_witness :
  reachable system_started
  /\ state_ (svc system_started) = STARTED
  /\ null_registered (svc system_started) = false
  /\ (stop_enter ;; DoHalEventLoop_resume ;; looper_runs ;; stop_resume)%hal
       (svc system_started)
     = Returns tt
         (mkService [] (StdSet.insert 7 StdSet.empty) STOPPED 5 NotAThread
            false false)
         [Log INFO "Cleaning up HAL"; Hal (wifi_cleanup 5);
          Log VERBOSE "HAL Event loop terminated"; ThreadDetach;
          Log VERBOSE "HAL cleanup command complete";
          Log INFO "HAL cleanup complete"; Callback 7 onStop].
Proof.
  split; [exact system_started_reachable|].
  split; [reflexivity|]. split; [reflexivity|].
  exact (proj1 (proj2 (proj2
           (stop_completions_broadcast_onStop_once system_started
              system_started_reachable eq_refl eq_refl)))).
Defined.

(** On the looper's thread the task waits until [stop] has returned:
    the traces of [stop], of the thread and of the task. *)
Example cleanup_returns_first :
  option_map (map snd)
    (run [CallStop; EventLoopReturns; CleanupReturns; LooperRuns]
       system_started)
  = Some [ [Log INFO "Cleaning up HAL"; Hal (wifi_cleanup 5)];
           [Log VERBOSE "HAL Event loop terminated"; ThreadDetach];
           [Log VERBOSE "HAL cleanup command complete"];
           [Log INFO "HAL cleanup complete"; Callback 7 onStop] ].
Proof. reflexivity. Qed.

Example task_waits_for_stop :
  run [CallStop; EventLoopReturns; LooperRuns] system_started = None.
Proof. reflexivity. Qed.

(** Without the HAL keeping its side, the thread coming back from
    [wifi_event_loop] in state STARTED ends the process. *)
Example event_loop_returns_while_started :
  step EventLoopReturns system_started
  = Crash [Log FATAL "HAL event loop terminated, but HAL was not stopping"].
Proof. reflexivity. Qed.

(** ** The two flags *)

(** C2: every operation on the object keeps the invariant that both
    flags are false whenever the state is not STOPPING (so a flag is set
    only in state STOPPING): an operation that returns from a state with
    the invariant leaves a state with it.  The process ends instead only
    in [start] or in the rest of [DoHalEventLoop], or where the null
    pointer is registered and called.  Whenever an operation takes the
    state from STOPPING to STOPPED, both flags are false. *)
Theorem pending_flags_idle_outside_stopping :
  (forall (op : operation) (s : WifiHalService),
      flags_idle s = true ->
      match perform op s with
      | Returns _ s' _ => flags_idle s' = true
      | Aborts _ => may_abort op = true \/ null_registered s = true
      end)
  /\ (forall (op : operation) (s s' : WifiHalService) (tr : trace),
        perform op s = Returns tt s' tr ->
        state_ s = STOPPING ->
        state_ s' = STOPPED ->
        awaiting_hal_cleanup_command_ s' = false
        /\ awaiting_hal_event_loop_termination_ s' = false).
Proof.
  split; [exact perform_keeps_flags_idle | exact stopped_only_with_flags_clear].
Qed.

Lemma pending_flags_idle_outside_stopping_witness :
  let s := sample_service STOPPING NotAThread false true in
  flags_idle s = true
  /\ perform (op_task EventLoopTerminated) s
     = Returns tt (sample_service STOPPED NotAThread false false)
         [Log INFO "HAL cleanup complete"; Callback 3 onStop; Callback 7 onStop]
  /\ flags_idle (sample_service STOPPED NotAThread false false) = true
  /\ awaiting_hal_cleanup_command_ (sample_service STOPPED NotAThread false false)
     = false.
Proof.
  intros s.
  destruct pending_flags_idle_outside_stopping as (Hkeep & Hclear).
  split; [reflexivity|]. split; [reflexivity|].
  split.
  - exact (Hkeep (op_task EventLoopTerminated) s eq_refl).
  - exact (proj1 (Hclear (op_task EventLoopTerminated) s _ _
                    eq_refl eq_refl eq_refl)).
Defined.

(** ** The failure reason of a legacy error *)

Example translate_not_supported :
  CreateFailureReasonLegacyError WIFI_ERROR_NOT_SUPPORTED "Failed to initialize HAL"
  = mkFailureReason NOT_SUPPORTED "Failed to initialize HAL".
Proof. reflexivity. Qed.

Example translate_too_many_requests :
  CreateFailureReasonLegacyError WIFI_ERROR_TOO_MANY_REQUESTS "scan"
  = mkFailureReason UNKNOWN "scan, too many requests".
Proof. reflexivity. Qed.

Example translate_none :
  CreateFailureReasonLegacyError WIFI_ERROR_NONE "scan"
  = mkFailureReason UNKNOWN "unknown".
Proof. reflexivity. Qed.

(** C3, as stated, fails: a description is carried as a C string, so
    one with a NUL character in it arrives cut at that character, and a
    suffix appended to it is lost with the rest. *)
Lemma legacy_error_description_cut_at_nul :
  CreateFailureReasonLegacyError WIFI_ERROR_NOT_SUPPORTED description_with_nul
    = mkFailureReason NOT_SUPPORTED "a"
  /\ CreateFailureReasonLegacyError WIFI_ERROR_NOT_SUPPORTED description_with_nul
    <> mkFailureReason NOT_SUPPORTED description_with_nul
  /\ CreateFailureReasonLegacyError WIFI_ERROR_TIMED_OUT description_with_nul
    <> mkFailureReason UNKNOWN (description_with_nul ++ ", timed out").
Proof. split; [reflexivity | split; discriminate]. Qed.

(** C3 (amended): for every description without a NUL character,
    [CreateFailureReasonLegacyError] follows the table: UNINITIALIZED and
    NOT_AVAILABLE give NOT_AVAILABLE, NOT_SUPPORTED gives NOT_SUPPORTED,
    INVALID_ARGS and INVALID_REQUEST_ID give INVALID_ARGS, each with the
    description as it is; TIMED_OUT, TOO_MANY_REQUESTS and OUT_OF_MEMORY
    give UNKNOWN with the description followed by [", timed out"],
    [", too many requests"] and [", out of memory"]; NONE, UNKNOWN and
    every code without a row of its own give UNKNOWN with the text
    ["unknown"].  The result is a function of the code and the
    description alone. *)
Theorem legacy_error_translation_table (desc : string) :
  nul_free desc = true ->
  CreateFailureReasonLegacyError WIFI_ERROR_UNINITIALIZED desc
    = mkFailureReason NOT_AVAILABLE desc
  /\ CreateFailureReasonLegacyError WIFI_ERROR_NOT_AVAILABLE desc
    = mkFailureReason NOT_AVAILABLE desc
  /\ CreateFailureReasonLegacyError WIFI_ERROR_NOT_SUPPORTED desc
    = mkFailureReason NOT_SUPPORTED desc
  /\ CreateFailureReasonLegacyError WIFI_ERROR_INVALID_ARGS desc
    = mkFailureReason INVALID_ARGS desc
  /\ CreateFailureReasonLegacyError WIFI_ERROR_INVALID_REQUEST_ID desc
    = mkFailureReason INVALID_ARGS desc
  /\ CreateFailureReasonLegacyError WIFI_ERROR_TIMED_OUT desc
    = mkFailureReason UNKNOWN (desc ++ ", timed out")
  /\ CreateFailureReasonLegacyError WIFI_ERROR_TOO_MANY_REQUESTS desc
    = mkFailureReason UNKNOWN (desc ++ ", too many requests")
  /\ CreateFailureReasonLegacyError WIFI_ERROR_OUT_OF_MEMORY desc
    = mkFailureReason UNKNOWN (desc ++ ", out of memory")
  /\ CreateFailureReasonLegacyError WIFI_ERROR_NONE desc
    = mkFailureReason UNKNOWN "unknown"
  /\ CreateFailureReasonLegacyError WIFI_ERROR_UNKNOWN desc
    = mkFailureReason UNKNOWN "unknown"
  /\ (forall error : wifi_error,
        has_own_row error = false ->
        CreateFailureReasonLegacyError error desc
          = mkFailureReason UNKNOWN "unknown").
Proof.
  intros Hdesc.
  assert (forall suffix, nul_free suffix = true ->
            c_str (desc ++ suffix) = (desc ++ suffix)%string) as Hsuffix.
  { intros suffix Hs. apply c_str_nul_free.
    rewrite nul_free_append, Hdesc, Hs. reflexivity. }
  unfold CreateFailureReasonLegacyError, CreateFailureReason.
  cbn [Z.eqb WIFI_ERROR_UNINITIALIZED WIFI_ERROR_NOT_AVAILABLE
       WIFI_ERROR_NOT_SUPPORTED WIFI_ERROR_INVALID_ARGS
       WIFI_ERROR_INVALID_REQUEST_ID WIFI_ERROR_TIMED_OUT
       WIFI_ERROR_TOO_MANY_REQUESTS WIFI_ERROR_OUT_OF_MEMORY WIFI_ERROR_NONE
       WIFI_ERROR_UNKNOWN Pos.eqb orb].
  rewrite (c_str_nul_free desc Hdesc), !Hsuffix by reflexivity.
  repeat (split; [reflexivity|]).
  intros error Hrow. unfold has_own_row, translated_codes in Hrow.
  cbn [existsb] in Hrow.
  repeat (apply orb_false_iff in Hrow as [?H Hrow]).
  repeat match goal with H : (error =? _) = false |- _ => rewrite H; clear H end.
  reflexivity.
Qed.

Lemma legacy_error_translation_table_witness :
  nul_free "Failed to initialize HAL" = true
  /\ CreateFailureReasonLegacyError WIFI_ERROR_TIMED_OUT "Failed to initialize HAL"
     = mkFailureReason UNKNOWN "Failed to initialize HAL, timed out"
  /\ CreateFailureReasonLegacyError (-10) "Failed to initialize HAL"
     = mkFailureReason UNKNOWN "unknown".
Proof.
  split; [reflexivity|].
  pose proof (legacy_error_translation_table "Failed to initialize HAL" eq_refl)
    as (_ & _ & _ & _ & _ & Htimed & _ & _ & _ & _ & Hother).
  split; [exact Htimed | exact (Hother (-10) eq_refl)].
Defined.

(** ** The end of the event loop *)

(** C4: when [wifi_event_loop] returns while the state is not STOPPING,
    [DoHalEventLoop] logs at severity FATAL and the process ends there:
    the thread is not detached and no task is posted.  In a run in which
    the legacy HAL lets [wifi_event_loop] return only after [stop] has
    called [wifi_cleanup] (having set the state to STOPPING), the state
    is STOPPING whenever the call returns and the function goes on; and
    where the null pointer is not registered, no action at all ends the
    process. *)
Theorem event_loop_exit_outside_stopping_is_fatal :
  (forall s : WifiHalService,
      state_ s <> STOPPING ->
      DoHalEventLoop_resume s =
      Aborts [Log FATAL "HAL event loop terminated, but HAL was not stopping"])
  /\ (forall sys : system,
        reachable sys ->
        hal_permits EventLoopReturns sys = true ->
        (0 < looping sys)%nat ->
        state_ (svc sys) = STOPPING
        /\ exists sys' tr, step EventLoopReturns sys = Next sys' tr)
  /\ (forall (sys : system) (a : action) (tr : trace),
        reachable sys -> hal_permits a sys = true ->
        null_registered (svc sys) = false ->
        step a sys <> Crash tr).
Proof.
  split; [exact DoHalEventLoop_resume_fatal|].
  split; [|exact reachable_no_crash].
  intros sys Hreach Hp Hlo.
  split; [exact (reachable_event_loop_return sys Hreach Hp Hlo)|].
  exact (reachable_event_loop_goes_on sys Hreach Hp Hlo).
Qed.

Lemma system_in_cleanup_reachable : reachable system_in_cleanup.
Proof.
  eapply (run_last_reachable run_into_cleanup (initial 0 false false)
            [_; _; _]); [apply reach_initial|].
  reflexivity.
Qed.

Lemma event_loop_exit_outside_stopping_is_fatal_witness :
  DoHalEventLoop_resume (sample_service STARTED Joinable false false)
  = Aborts [Log FATAL "HAL event loop terminated, but HAL was not stopping"]
  /\ reachable system_in_cleanup
  /\ hal_permits EventLoopReturns system_in_cleanup = true
  /\ (0 < looping system_in_cleanup)%nat
  /\ state_ (svc system_in_cleanup) = STOPPING
  /\ exists sys' tr', step EventLoopReturns system_in_cleanup = Next sys' tr'.
Proof.
  destruct event_loop_exit_outside_stopping_is_fatal as (Hfatal & Hgoes & _).
  split; [apply Hfatal; discriminate|].
  assert (0 < looping system_in_cleanup)%nat as Hlo by (cbn; lia).
  split; [exact system_in_cleanup_reachable|].
  split; [reflexivity|]. split; [exact Hlo|].
  exact (Hgoes system_in_cleanup system_in_cleanup_reachable eq_refl Hlo).
Defined.

(** ** The set of callbacks *)

(** C5, as stated, fails: the callbacks are kept in a [std::set], which
    a broadcast walks in ascending order of the handles.  Handle [7]
    registered before handle [3] is invoked after it.  And a registered
    null pointer is called like any other: the broadcast ends the
    process there, and a callback behind it in the set is not invoked. *)
Lemma broadcast_not_in_registration_order :
  (exists s,
      register_all [7; 3] (WifiHalService_ctor [] 0 false false)
      = Returns tt s []
      /\ invoked (trace_of (stop s)) = [3; 7]
      /\ invoked (trace_of (stop s)) <> [7; 3])
  /\ (exists s,
        register_all [7; null] (WifiHalService_ctor [] 0 false false)
        = Returns tt s []
        /\ StdSet.mem 7 (callbacks_ s) = true
        /\ stop s = Aborts []).
Proof.
  split.
  - eexists. split; [apply RegistrationFacts.register_all_eq|].
    split; [reflexivity|discriminate].
  - eexists. split; [apply RegistrationFacts.register_all_eq|].
    split; reflexivity.
Qed.

(** C5 (amended): after any sequence of registrations the set holds
    exactly the registered handles (with those it held before), each
    once.  When the null pointer is not among them, a broadcast of a
    notification invokes every handle of the set exactly once, in
    ascending order of the handles; when it is, the broadcast invokes
    the handles that are below it in that order and ends the process. *)
Theorem broadcast_reaches_each_callback_once
    (regs : list callback_handle) (s0 : WifiHalService) (n : notification) :
  exists s,
    register_all regs s0 = Returns tt s []
    /\ (forall cb,
          StdSet.mem cb (callbacks_ s) =
          (existsb (Z.eqb cb) regs || StdSet.mem cb (callbacks_ s0))%bool)
    /\ NoDup (StdSet.elements (callbacks_ s))
    /\ for_callbacks (call n) s =
       (if null_registered s
        then Aborts (broadcast_cut n s)
        else Returns tt s (broadcast n s))
    /\ null_registered s =
       (existsb (Z.eqb null) regs || null_registered s0)%bool
    /\ (forall cb,
          received cb (broadcast n s) =
          if StdSet.mem cb (callbacks_ s) then [n] else [])
    /\ invoked (broadcast n s) = StdSet.elements (callbacks_ s)
    /\ StronglySorted Z.lt (invoked (broadcast n s))
    /\ invoked (broadcast_cut n s)
       = before_null (StdSet.elements (callbacks_ s))
    /\ (null_registered s = true ->
        Forall (fun cb => cb < null) (invoked (broadcast_cut n s))).
Proof.
  eexists. split; [apply RegistrationFacts.register_all_eq|].
  split; [intros cb; apply RegistrationFacts.mem_fold_insert|].
  split; [apply StdSetFacts.elements_NoDup|].
  split; [apply for_callbacks_call|].
  split; [apply RegistrationFacts.mem_fold_insert|].
  split; [intros cb; apply received_broadcast|].
  split; [apply invoked_broadcast|].
  split; [rewrite invoked_broadcast; apply StdSetFacts.elements_sorted|].
  split; [apply invoked_broadcast_cut|].
  intros Hnull. rewrite invoked_broadcast_cut.
  apply before_null_below; [apply StdSetFacts.elements_sorted | exact Hnull].
Qed.

(** ** [start] and [stop] outside the stopping sequence *)

(** C6, as stated, fails: with the null pointer registered, [start] in
    state STOPPING calls it and the process ends; callback [7], which is
    registered too, receives nothing. *)
Lemma start_while_stopping_null_callback :
  let s := service_with_null STOPPING Joinable true true in
  state_ s = STOPPING
  /\ StdSet.mem 7 (callbacks_ s) = true
  /\ start (WIFI_SUCCESS, 1) s = Aborts []
  /\ received 7 (trace_of (start (WIFI_SUCCESS, 1) s)) = [].
Proof. repeat split; reflexivity. Qed.

(** C6 (amended): when [start] is called in state STOPPING and the null
    pointer is not registered, every registered callback receives one
    [onStartFailure] whose reason is NOT_AVAILABLE (and nothing else),
    the object is left as it was (state STOPPING, the two flags, the
    thread object), the legacy HAL is not called and no thread is
    created.  When the null pointer is registered, the process ends in
    the broadcast. *)
Theorem start_while_stopping_is_rejected
    (init : wifi_error * wifi_handle) (s : WifiHalService) :
  state_ s = STOPPING ->
  let failure :=
    onStartFailure (mkFailureReason NOT_AVAILABLE "HAL is stopping") in
  (null_registered s = false ->
   start init s = Returns tt s (broadcast failure s))
  /\ (null_registered s = true ->
      start init s = Aborts (broadcast_cut failure s))
  /\ (forall cb,
        received cb (broadcast failure s) =
        if StdSet.mem cb (callbacks_ s) then [failure] else [])
  /\ hal_calls (broadcast failure s) = []
  /\ threads_created (broadcast failure s) = 0%nat.
Proof.
  intros Hst failure.
  split; [intros Hnn; rewrite (start_STOPPING init s Hst), Hnn; reflexivity|].
  split; [intros Hnn; rewrite (start_STOPPING init s Hst), Hnn; reflexivity|].
  split; [intros cb; apply received_broadcast|].
  split; [apply hal_calls_broadcast | apply no_thread_in_broadcast].
Qed.

Lemma start_while_stopping_is_rejected_witness :
  let s := sample_service STOPPING Joinable true true in
  let failure :=
    onStartFailure (mkFailureReason NOT_AVAILABLE "HAL is stopping") in
  state_ s = STOPPING
  /\ null_registered s = false
  /\ start (WIFI_SUCCESS, 1) s =
       Returns tt s [Callback 3 failure; Callback 7 failure]
  /\ received 3 (broadcast failure s) = [failure].
Proof.
  intros s failure.
  pose proof (start_while_stopping_is_rejected (WIFI_SUCCESS, 1) s eq_refl)
    as (Hrun & _ & Hrecv & _).
  split; [reflexivity|]. split; [reflexivity|].
  split; [exact (Hrun eq_refl) | exact (Hrecv 3)].
Defined.

(** C7, as stated, fails: with the null pointer registered, the failure
    of [wifi_initialize] is logged and the broadcast ends the process;
    callback [7] receives nothing. *)
Lemma start_initialize_failure_null_callback :
  let s := service_with_null STOPPED NotAThread false false in
  state_ s = STOPPED
  /\ fst (WIFI_ERROR_NOT_SUPPORTED, 0) <> WIFI_SUCCESS
  /\ StdSet.mem 7 (callbacks_ s) = true
  /\ start (WIFI_ERROR_NOT_SUPPORTED, 0) s
     = Aborts [Log INFO "Initializing HAL"; Hal wifi_initialize;
               Log ERROR "Failed to initialize Wifi HAL"]
  /\ received 7 (trace_of (start (WIFI_ERROR_NOT_SUPPORTED, 0) s)) = [].
Proof. split; [reflexivity | split; [discriminate | repeat split; reflexivity]]. Qed.

(** C7 (amended): when [start] is called in state STOPPED, the null
    pointer is not registered and [wifi_initialize] returns a status
    other than [WIFI_SUCCESS], no thread is created, the state stays
    STOPPED and the two flags keep their values (so they stay false),
    and every registered callback receives one [onStartFailure] whose
    reason is the translation of that status. *)
Theorem start_initialize_failure
    (init : wifi_error * wifi_handle) (s : WifiHalService) :
  state_ s = STOPPED ->
  fst init <> WIFI_SUCCESS ->
  null_registered s = false ->
  let failure :=
    onStartFailure
      (CreateFailureReasonLegacyError (fst init) "Failed to initialize HAL") in
  exists tr,
    let s' := set_hal_handle (snd init) s in
    start init s = Returns tt s' tr
    /\ state_ s' = STOPPED
    /\ isStarted s' = Returns false s' []
    /\ awaiting_hal_cleanup_command_ s' = awaiting_hal_cleanup_command_ s
    /\ awaiting_hal_event_loop_termination_ s'
       = awaiting_hal_event_loop_termination_ s
    /\ event_loop_thread_ s' = event_loop_thread_ s
    /\ threads_created tr = 0%nat
    /\ hal_calls tr = [wifi_initialize]
    /\ (forall cb,
          received cb tr =
          if StdSet.mem cb (callbacks_ s) then [failure] else []).
Proof.
  intros Hst Hstatus Hnn failure. eexists. cbv zeta.
  split; [rewrite (start_STOPPED_failure init s Hst Hstatus), Hnn; reflexivity|].
  split; [exact Hst|].
  split; [unfold isStarted, bind, read, ret; cbn; rewrite Hst; reflexivity|].
  do 3 (split; [reflexivity|]).
  split; [rewrite threads_created_app,
            no_thread_in_broadcast; reflexivity|].
  split; [rewrite hal_calls_app, hal_calls_broadcast; reflexivity|].
  intros cb. rewrite received_app. apply received_broadcast.
Qed.

Lemma start_initialize_failure_witness :
  let s := sample_service STOPPED NotAThread false false in
  let failure :=
    onStartFailure
      (mkFailureReason NOT_SUPPORTED "Failed to initialize HAL") in
  state_ s = STOPPED
  /\ fst (WIFI_ERROR_NOT_SUPPORTED, 0) <> WIFI_SUCCESS
  /\ null_registered s = false
  /\ exists tr,
       start (WIFI_ERROR_NOT_SUPPORTED, 0) s = Returns tt s tr
       /\ received 7 tr = [failure].
Proof.
  intros s failure.
  assert (fst (WIFI_ERROR_NOT_SUPPORTED, 0) <> WIFI_SUCCESS) as Hne
    by discriminate.
  split; [reflexivity|]. split; [exact Hne|]. split; [reflexivity|].
  destruct (start_initialize_failure (WIFI_ERROR_NOT_SUPPORTED, 0) s
              eq_refl Hne eq_refl)
    as (tr & Hrun & _ & _ & _ & _ & _ & _ & _ & Hrecv).
  exists tr. split; [exact Hrun | exact (Hrecv 7)].
Defined.

(** C8: when [stop] is called in state STOPPING it returns at once: the
    object is left as it was (state and flags included), [wifi_cleanup]
    is not called and no callback is invoked. *)
Theorem stop_while_stopping_is_noop (s : WifiHalService) :
  state_ s = STOPPING ->
  stop s = Returns tt s []
  /\ stop_enter s = Returns Finished s [].
Proof.
  intros Hst. split; [apply stop_STOPPING | apply stop_enter_STOPPING]; exact Hst.
Qed.

Lemma stop_while_stopping_is_noop_witness :
  let s := sample_service STOPPING Joinable true true in
  stop s = Returns tt s [] /\ stop_enter s = Returns Finished s [].
Proof.
  intros s. exact (stop_while_stopping_is_noop s eq_refl).
Defined.

(** C9, as stated, fails: with the null pointer registered, [stop] in
    state STOPPED calls it and the process ends; callback [7] receives
    nothing. *)
Lemma stop_while_stopped_null_callback :
  let s := service_with_null STOPPED NotAThread false false in
  state_ s = STOPPED
  /\ StdSet.mem 7 (callbacks_ s) = true
  /\ stop s = Aborts []
  /\ received 7 (trace_of (stop s)) = [].
Proof. repeat split; reflexivity. Qed.

(** C9 (amended): when [stop] is called in state STOPPED and the null
    pointer is not registered, every registered callback receives one
    [onStop] (and nothing else) within the call, the legacy HAL is not
    called, and the object is left as it was (state and flags included).
    When the null pointer is registered, the process ends in the
    broadcast. *)
Theorem stop_while_stopped_broadcasts_onStop (s : WifiHalService) :
  state_ s = STOPPED ->
  (null_registered s = false -> stop s = Returns tt s (broadcast onStop s))
  /\ (null_registered s = true -> stop s = Aborts (broadcast_cut onStop s))
  /\ (forall cb,
        received cb (broadcast onStop s) =
        if StdSet.mem cb (callbacks_ s) then [onStop] else [])
  /\ hal_calls (broadcast onStop s) = []
  /\ threads_created (broadcast onStop s) = 0%nat.
Proof.
  intros Hst.
  split; [intros Hnn; rewrite (stop_STOPPED s Hst), Hnn; reflexivity|].
  split; [intros Hnn; rewrite (stop_STOPPED s Hst), Hnn; reflexivity|].
  split; [intros cb; apply received_broadcast|].
  split; [apply hal_calls_broadcast | apply no_thread_in_broadcast].
Qed.

Lemma stop_while_stopped_broadcasts_onStop_witness :
  let s := sample_service STOPPED NotAThread false false in
  state_ s = STOPPED
  /\ null_registered s = false
  /\ stop s = Returns tt s [Callback 3 onStop; Callback 7 onStop]
  /\ received 7 (broadcast onStop s) = [onStop]
  /\ received 5 (broadcast onStop s) = [].
Proof.
  intros s.
  pose proof (stop_while_stopped_broadcasts_onStop s eq_refl)
    as (Hrun & _ & Hrecv & _).
  split; [reflexivity|]. split; [reflexivity|].
  split; [exact (Hrun eq_refl)|]. split; [exact (Hrecv 7) | exact (Hrecv 5)].
Defined.

(** ** [set_iface_up] *)

(** C10, as stated, fails: [wlan0] is up and is asked to be up, but the
    socket cannot be opened and the function returns false. *)
Lemma set_iface_up_fails_without_socket :
  iface_is kernel_without_sockets "wlan0" true
  /\ set_iface_up "wlan0" true kernel_without_sockets
     = (false, kernel_without_sockets, [sys_socket]).
Proof.
  split; [exists 1; split; reflexivity | reflexivity].
Qed.

(** C10 (amended): when the socket is opened and the name fits
    [ifr_name], then for every interface whose [IFF_UP] flag equals the
    requested value [set_iface_up] returns true, the kernel (the flags of
    every interface) is left as it was, and the only [ioctl] made is
    [SIOCGIFFLAGS]. *)
Theorem set_iface_up_noop_when_already_as_requested
    (if_name : string) (request_up : bool) (k : kernel) :
  0 <= socket_result k ->
  Z.of_nat (String.length (c_str if_name)) < IFNAMSIZ ->
  iface_is k (c_str if_name) request_up ->
  set_iface_up if_name request_up k
    = (true, k,
       [sys_socket; sys_ioctl_SIOCGIFFLAGS (c_str if_name);
        sys_close (socket_result k)])
  /\ filter is_SIOCSIFFLAGS (snd (set_iface_up if_name request_up k)) = [].
Proof.
  intros Hsock Hlen (flags & Hlook & Hup).
  assert (set_iface_up if_name request_up k
          = (true, k,
             [sys_socket; sys_ioctl_SIOCGIFFLAGS (c_str if_name);
              sys_close (socket_result k)])) as Hrun.
  { unfold set_iface_up.
    destruct (socket_result k <? 0) eqn:Hneg;
      [apply Z.ltb_lt in Hneg; lia|].
    destruct (Z.of_nat (String.length (c_str if_name)) >=? IFNAMSIZ) eqn:Hge;
      [apply Z.geb_le in Hge; lia|].
    unfold ioctl_SIOCGIFFLAGS. rewrite Hlook, Hup.
    rewrite Bool.eqb_reflx. reflexivity. }
  split; [exact Hrun|]. rewrite Hrun. reflexivity.
Qed.

Lemma set_iface_up_noop_when_already_as_requested_witness :
  let k := sample_kernel 4099 in
  0 <= socket_result k
  /\ Z.of_nat (String.length (c_str "wlan0")) < IFNAMSIZ
  /\ iface_is k (c_str "wlan0") true
  /\ set_iface_up "wlan0" true k
     = (true, k, [sys_socket; sys_ioctl_SIOCGIFFLAGS "wlan0"; sys_close 3]).
Proof.
  intros k.
  assert (0 <= socket_result k) as Hsock by (cbn; lia).
  assert (Z.of_nat (String.length (c_str "wlan0")) < IFNAMSIZ) as Hlen
    by reflexivity.
  assert (iface_is k (c_str "wlan0") true) as Hup
    by (exists 4099; split; reflexivity).
  repeat (split; [assumption|]).
  exact (proj1 (set_iface_up_noop_when_already_as_requested
                  "wlan0" true k Hsock Hlen Hup)).
Defined.

(* ================================================================== *)
(** * Further properties of the code *)
(* ================================================================== *)

Import Cycle Calls Flags Common.
Import NotificationFacts HalCallFacts CycleFacts CallFacts CStringFacts.
Import FlagFacts KernelFacts SetIfaceFacts.

(** ** [start] and [stop] in state STARTED and from STOPPED *)

(** X1: when [start] is called in state STARTED and the null pointer
    is not registered, every registered callback receives one [onStart]
    (and nothing else), the object is left as it was, [wifi_initialize]
    is not called again and no second thread is created.  When the null
    pointer is registered, the process ends in the broadcast. *)
Theorem start_while_started_reconfirms
    (init : wifi_error * wifi_handle) (s : WifiHalService) :
  state_ s = STARTED ->
  (null_registered s = false ->
   start init s = Returns tt s (broadcast onStart s))
  /\ (null_registered s = true ->
      start init s = Aborts (broadcast_cut onStart s))
  /\ (forall cb,
        received cb (broadcast onStart s) =
        if StdSet.mem cb (callbacks_ s) then [onStart] else [])
  /\ hal_calls (broadcast onStart s) = []
  /\ threads_created (broadcast onStart s) = 0%nat.
Proof.
  intros Hst.
  split; [intros Hnn; rewrite (start_STARTED init s Hst), Hnn; reflexivity|].
  split; [intros Hnn; rewrite (start_STARTED init s Hst), Hnn; reflexivity|].
  split; [intros cb; apply received_broadcast|].
  split; [apply hal_calls_broadcast | apply no_thread_in_broadcast].
Qed.

Lemma start_while_started_reconfirms_witness :
  let s := sample_service STARTED Joinable false false in
  state_ s = STARTED
  /\ null_registered s = false
  /\ start (WIFI_ERROR_UNKNOWN, 9) s
     = Returns tt s [Callback 3 onStart; Callback 7 onStart]
  /\ received 7 (broadcast onStart s) = [onStart].
Proof.
  intros s.
  pose proof (start_while_started_reconfirms (WIFI_ERROR_UNKNOWN, 9) s eq_refl)
    as (Hrun & _ & Hrecv & _).
  split; [reflexivity|]. split; [reflexivity|].
  split; [exact (Hrun eq_refl) | exact (Hrecv 7)].
Defined.

(** X2: when [start] is called in state STOPPED, [wifi_initialize]
    returns [WIFI_SUCCESS], the thread object owns no thread and the
    null pointer is not registered, the state becomes STARTED
    ([isStarted] is true), [hal_handle_] holds the new handle, exactly
    one thread is created, [wifi_initialize] is the only call into the
    legacy HAL, the two flags, the looper and the set of callbacks are
    untouched, and every registered callback receives one [onStart] and
    nothing else.  When the null pointer is registered, the process ends
    in the broadcast, after the HAL was initialized and the thread
    created. *)
Theorem start_success_enters_started
    (init : wifi_error * wifi_handle) (s : WifiHalService) :
  state_ s = STOPPED ->
  fst init = WIFI_SUCCESS ->
  event_loop_thread_ s = NotAThread ->
  (null_registered s = false ->
   exists s' tr,
     start init s = Returns tt s' tr
     /\ state_ s' = STARTED
     /\ isStarted s' = Returns true s' []
     /\ hal_handle_ s' = snd init
     /\ event_loop_thread_ s' = Joinable
     /\ awaiting_hal_cleanup_command_ s' = awaiting_hal_cleanup_command_ s
     /\ awaiting_hal_event_loop_termination_ s'
        = awaiting_hal_event_loop_termination_ s
     /\ looper_ s' = looper_ s
     /\ callbacks_ s' = callbacks_ s
     /\ hal_calls tr = [wifi_initialize]
     /\ threads_created tr = 1%nat
     /\ (forall cb,
           received cb tr =
           if StdSet.mem cb (callbacks_ s) then [onStart] else []))
  /\ (null_registered s = true ->
      start init s =
      Aborts ([Log INFO "Initializing HAL"; Hal wifi_initialize; ThreadCreate]
              ++ broadcast_cut onStart s)).
Proof.
  intros Hst Hok Ht. split; intros Hnn.
  - eexists _, _.
    split; [rewrite (start_STOPPED_success init s Hst Hok Ht), Hnn;
            reflexivity|].
    split; [reflexivity|]. split; [reflexivity|].
    do 6 (split; [reflexivity|]).
    split; [rewrite hal_calls_app, hal_calls_broadcast; reflexivity|].
    split; [rewrite threads_created_app, no_thread_in_broadcast; reflexivity|].
    intros cb. rewrite received_app. apply received_broadcast.
  - rewrite (start_STOPPED_success init s Hst Hok Ht), Hnn. reflexivity.
Qed.

Lemma start_success_enters_started_witness :
  let s := sample_service STOPPED NotAThread false false in
  state_ s = STOPPED
  /\ null_registered s = false
  /\ exists s' tr,
       start (WIFI_SUCCESS, 5) s = Returns tt s' tr
       /\ state_ s' = STARTED
       /\ received 3 tr = [onStart].
Proof.
  intros s. split; [reflexivity|]. split; [reflexivity|].
  destruct (proj1 (start_success_enters_started (WIFI_SUCCESS, 5) s
                     eq_refl eq_refl eq_refl) eq_refl)
    as (s' & tr & Hrun & Hst & _ & _ & _ & _ & _ & _ & _ & _ & _ & Hrecv).
  exists s', tr. split; [exact Hrun|]. split; [exact Hst | exact (Hrecv 3)].
Defined.

(** X3: when [stop] is called in state STARTED and nothing else runs
    before [wifi_cleanup] returns, [stop] returns in state STOPPING
    ([isStarted] is still true) with the cleanup flag cleared and the
    event loop flag set: it has called [wifi_cleanup] once, with
    [hal_handle_], and has invoked no callback.  The [onStop] is left to
    the task that the thread posts. *)
Theorem stop_from_started_awaits_event_loop (s : WifiHalService) :
  state_ s = STARTED ->
  exists s' tr,
    stop s = Returns tt s' tr
    /\ state_ s' = STOPPING
    /\ isStarted s' = Returns true s' []
    /\ awaiting_hal_cleanup_command_ s' = false
    /\ awaiting_hal_event_loop_termination_ s' = true
    /\ hal_calls tr = [wifi_cleanup (hal_handle_ s)]
    /\ invoked tr = []
    /\ callbacks_ s' = callbacks_ s
    /\ looper_ s' = looper_ s
    /\ event_loop_thread_ s' = event_loop_thread_ s.
Proof.
  intros Hst. eexists _, _.
  split; [exact (stop_STARTED s Hst)|].
  repeat (split; [reflexivity|]). reflexivity.
Qed.

Lemma stop_from_started_awaits_event_loop_witness :
  let s := sample_service STARTED Joinable false false in
  exists s' tr,
    stop s = Returns tt s' tr
    /\ state_ s' = STOPPING
    /\ hal_calls tr = [wifi_cleanup 0]
    /\ invoked tr = [].
Proof.
  intros s.
  destruct (stop_from_started_awaits_event_loop s eq_refl)
    as (s' & tr & Hrun & Hst & _ & _ & _ & Hhal & Hinv & _).
  exists s', tr. auto.
Defined.

(** ** What a notification tells about the state *)

(** X4: whatever operation delivers it, a notification agrees with the
    state the operation leaves: [onStart] is delivered only by an
    operation that ends in state STARTED, [onStop] only by one that ends
    in state STOPPED, and [onStartFailure] only by one that does not end
    in state STARTED. *)
Theorem notifications_agree_with_state
    (op : operation) (s s' : WifiHalService) (tr : trace)
    (cb : callback_handle) :
  perform op s = Returns tt s' tr ->
  (In onStart (received cb tr) -> state_ s' = STARTED)
  /\ (In onStop (received cb tr) -> state_ s' = STOPPED)
  /\ (forall r, In (onStartFailure r) (received cb tr) -> state_ s' <> STARTED).
Proof.
  intros Hrun.
  assert (forall n m x, In m (received cb (broadcast n x)) -> m = n) as Hb
    by (intros; eapply In_received_broadcast; eauto).
  destruct op; cbn [perform] in Hrun.
  - rewrite registerEventCallback_eq in Hrun. injection Hrun as <- <-.
    cbn. intuition.
  - destruct (state_ s) eqn:Hst.
    + destruct (Z.eq_dec (fst init) WIFI_SUCCESS) as [Hok|Hko].
      * destruct (event_loop_thread_ s) eqn:Ht.
        -- rewrite (start_STOPPED_success _ _ Hst Hok Ht) in Hrun.
           cbv zeta in Hrun. destruct (null_registered s); [discriminate|].
           injection Hrun as <- <-. cbn [app received].
           repeat split; try reflexivity.
           ++ intros H. apply Hb in H. discriminate.
           ++ intros r H. apply Hb in H. discriminate.
        -- rewrite (start_STOPPED_terminate _ _ Hst Hok Ht) in Hrun.
           discriminate.
      * rewrite (start_STOPPED_failure _ _ Hst Hko) in Hrun.
        cbv zeta in Hrun. destruct (null_registered s); [discriminate|].
        injection Hrun as <- <-. cbn [app received].
        repeat split.
        -- intros H. apply Hb in H. discriminate.
        -- intros _. exact Hst.
        -- intros r _. cbn. congruence.
    + rewrite (start_STARTED _ _ Hst) in Hrun.
      destruct (null_registered s); [discriminate|].
      injection Hrun as <- <-.
      repeat split.
      * intros _. exact Hst.
      * intros H. apply Hb in H. discriminate.
      * intros r H. apply Hb in H. discriminate.
    + rewrite (start_STOPPING _ _ Hst) in Hrun.
      cbv zeta in Hrun. destruct (null_registered s); [discriminate|].
      injection Hrun as <- <-.
      repeat split.
      * intros H. apply Hb in H. discriminate.
      * intros H. apply Hb in H. discriminate.
      * intros r _. congruence.
  - destruct (state_ s) eqn:Hst.
    + rewrite (stop_STOPPED _ Hst) in Hrun.
      destruct (null_registered s); [discriminate|].
      injection Hrun as <- <-.
      repeat split.
      * intros H. apply Hb in H. discriminate.
      * intros _. exact Hst.
      * intros r H. apply Hb in H. discriminate.
    + rewrite (stop_STARTED _ Hst) in Hrun. injection Hrun as <- <-.
      cbn. intuition.
    + rewrite (stop_STOPPING _ Hst) in Hrun. injection Hrun as <- <-.
      cbn. intuition.
  - unfold bind in Hrun. destruct (state_ s) eqn:Hst.
    + rewrite (stop_enter_STOPPED _ Hst) in Hrun.
      destruct (null_registered s); [discriminate|].
      injection Hrun as <- <-.
      rewrite app_nil_r. repeat split.
      * intros H. apply Hb in H. discriminate.
      * intros _. exact Hst.
      * intros r H. apply Hb in H. discriminate.
    + rewrite (stop_enter_STARTED _ Hst) in Hrun. injection Hrun as <- <-.
      cbn. intuition.
    + rewrite (stop_enter_STOPPING _ Hst) in Hrun. injection Hrun as <- <-.
      cbn. intuition.
  - rewrite stop_resume_eq in Hrun. cbv zeta in Hrun.
    destruct (awaiting_hal_event_loop_termination_ s);
      [|destruct (null_registered s); [discriminate|]];
      injection Hrun as <- <-; [cbn; intuition|].
    cbn [app received]. repeat split.
    + intros H. apply Hb in H. discriminate.
    + intros r H. apply Hb in H. discriminate.
  - destruct t. rewrite run_task_eq in Hrun. cbv zeta in Hrun.
    destruct (awaiting_hal_cleanup_command_ s);
      [|destruct (null_registered s); [discriminate|]];
      injection Hrun as <- <-; [cbn; intuition|].
    cbn [app received]. repeat split.
    + intros H. apply Hb in H. discriminate.
    + intros r H. apply Hb in H. discriminate.
  - rewrite FinishHalCleanup_eq in Hrun.
    destruct (both_clear s);
      [destruct (null_registered s); [discriminate|]|];
      injection Hrun as <- <-; [|cbn; intuition].
    cbn [app received]. repeat split.
    + intros H. apply Hb in H. discriminate.
    + intros r H. apply Hb in H. discriminate.
  - rewrite DoHalEventLoop_enter_eq in Hrun. injection Hrun as <- <-.
    cbn. intuition.
  - destruct (state_ s) eqn:Hst;
      try (rewrite DoHalEventLoop_resume_fatal in Hrun by congruence;
           discriminate).
    destruct (event_loop_thread_ s) eqn:Ht.
    + unfold DoHalEventLoop_resume in Hrun. revert Hrun. run_member.
      rewrite Hst. cbn [State_eqb negb]. run_member. rewrite Ht.
      discriminate.
    + rewrite (DoHalEventLoop_resume_STOPPING _ Hst Ht) in Hrun.
      injection Hrun as <- <-. cbn. intuition.
Qed.

Lemma notifications_agree_with_state_witness :
  let s := sample_service STOPPING NotAThread false true in
  exists s' tr,
    perform (op_task EventLoopTerminated) s = Returns tt s' tr
    /\ In onStop (received 7 tr)
    /\ state_ s' = STOPPED.
Proof.
  intros s. eexists _, _.
  assert (perform (op_task EventLoopTerminated) s
          = Returns tt (sample_service STOPPED NotAThread false false)
              [Log INFO "HAL cleanup complete"; Callback 3 onStop;
               Callback 7 onStop]) as Hrun by reflexivity.
  split; [exact Hrun|].
  assert (In onStop
            (received 7 [Log INFO "HAL cleanup complete"; Callback 3 onStop;
                         Callback 7 onStop])) as Hin by (cbn; auto).
  split; [exact Hin|].
  exact (proj1 (proj2 (notifications_agree_with_state _ _ _ _ 7 Hrun)) Hin).
Defined.

(** ** The thread and the object *)

(** X5: the thread created by [start] never changes the state, the
    flags, the handle or the set of callbacks, and invokes no callback.
    Before [wifi_event_loop] it leaves the object as it is, and calls
    [wifi_event_loop] with [hal_handle_] and nothing else.  When it has
    come back, either it goes on, in state STOPPING with a thread object
    that owns a thread, and all it does is detach that thread and append
    one task to the looper's queue; or the process ends, the state not
    being STOPPING or the thread object owning no thread. *)
Theorem event_loop_thread_only_posts (s : WifiHalService) :
  DoHalEventLoop_enter s =
    Returns tt s [Log VERBOSE "Starting HAL event loop";
                  Hal (wifi_event_loop (hal_handle_ s))]
  /\ match DoHalEventLoop_resume s with
     | Returns _ s' tr =>
         state_ s = STOPPING
         /\ event_loop_thread_ s = Joinable
         /\ s' = set_looper (looper_ s ++ [EventLoopTerminated])
                   (set_event_loop_thread NotAThread s)
         /\ invoked tr = []
         /\ hal_calls tr = []
         /\ threads_created tr = 0%nat
     | Aborts _ => state_ s <> STOPPING \/ event_loop_thread_ s = NotAThread
     end.
Proof.
  split; [apply DoHalEventLoop_enter_eq|].
  destruct (state_ s) eqn:Hst.
  - rewrite DoHalEventLoop_resume_fatal by congruence. left; discriminate.
  - rewrite DoHalEventLoop_resume_fatal by congruence. left; discriminate.
  - destruct (event_loop_thread_ s) eqn:Ht.
    + unfold DoHalEventLoop_resume. run_member. rewrite Hst.
      cbn [State_eqb negb]. run_member. rewrite Ht. now right.
    + rewrite (DoHalEventLoop_resume_STOPPING _ Hst Ht).
      repeat split; reflexivity.
Qed.

(** ** Registration *)

(** X6: registering a callback invokes no callback and changes nothing
    but the set; registering it a second time changes nothing at all, so
    a callback registered twice is notified once. *)
Theorem register_twice_is_once (cb : callback_handle) (s : WifiHalService)
    (n : notification) :
  exists s1,
    registerEventCallback cb s = Returns tt s1 []
    /\ registerEventCallback cb s1 = Returns tt s1 []
    /\ s1 = set_callbacks (callbacks_ s1) s
    /\ StdSet.mem cb (callbacks_ s1) = true
    /\ received cb (broadcast n s1) = [n].
Proof.
  exists (set_callbacks (StdSet.insert cb (callbacks_ s)) s).
  assert (StdSet.mem cb (StdSet.insert cb (callbacks_ s)) = true) as Hmem.
  { rewrite RegistrationFacts.mem_insert, Z.eqb_refl. reflexivity. }
  split; [apply registerEventCallback_eq|].
  split.
  { rewrite registerEventCallback_eq. cbn [callbacks_ set_callbacks].
    rewrite StdSetFacts.insert_idem; [reflexivity|].
    apply StdSetFacts.In_insert. now left. }
  split; [reflexivity|]. split; [exact Hmem|].
  rewrite received_broadcast. cbn [callbacks_ set_callbacks].
  rewrite Hmem. reflexivity.
Qed.

(** X7: the object after a sequence of registrations depends on which
    handles were registered, not on their order or on repetitions: two
    sequences with the same handles leave the same object, and so the
    same broadcasts. *)
Theorem registration_order_does_not_matter
    (regs regs' : list callback_handle) (s : WifiHalService) :
  (forall cb, In cb regs <-> In cb regs') ->
  register_all regs s = register_all regs' s.
Proof.
  intros Hsame. rewrite !RegistrationFacts.register_all_eq.
  rewrite (RegistrationFacts.registration_order_irrelevant regs regs' _ Hsame).
  reflexivity.
Qed.

Lemma registration_order_does_not_matter_witness :
  (forall cb, In cb [7; 3; 7] <-> In cb [3; 7])
  /\ register_all [7; 3; 7] (sample_service STOPPED NotAThread false false)
     = register_all [3; 7] (sample_service STOPPED NotAThread false false).
Proof.
  assert (forall cb, In cb [7; 3; 7] <-> In cb [3; 7]) as Hsame
    by (intros cb; cbn; intuition).
  split; [exact Hsame|].
  exact (registration_order_does_not_matter [7; 3; 7] [3; 7] _ Hsame).
Defined.

(** ** Threads, tasks and calls into the legacy HAL along a run *)





(** ** A whole cycle *)

(** X10: the methods and the posted task run on the looper's thread,
    the created thread beside it.  From a stopped system that a run has
    reached, with no null pointer registered, a successful [start]
    followed by [stop], the return of [wifi_cleanup], and the thread and
    the looper doing their part, leads back to a stopped system from
    which [start] can be called again: state STOPPED, both flags false,
    no thread, an empty looper queue, the callbacks as before.  Over the
    cycle every registered callback receives [onStart] and then
    [onStop], once each.  The orders that do not go through are those in
    which [wifi_event_loop] would return before [stop] is called, and
    those in which the looper would run the task while its thread is
    still inside [stop]. *)
Theorem start_stop_cycle_stops_again
    (sys : system) (h : wifi_handle) (acts : list action) :
  reachable sys ->
  state_ (svc sys) = STOPPED ->
  null_registered (svc sys) = false ->
  In acts cycles ->
  match run (CallStart (WIFI_SUCCESS, h) :: acts) sys with
  | Some steps =>
      fst (last steps (sys, [])) = stopped_again sys h
      /\ (forall cb,
            received cb (List.concat (map snd steps)) =
            if StdSet.mem cb (callbacks_ (svc sys))
            then [onStart; onStop] else [])
      /\ (loop_returns_unasked acts || task_runs_inside_stop acts)%bool = false
  | None =>
      (loop_returns_unasked acts || task_runs_inside_stop acts)%bool = true
  end.
Proof.
  intros Hreach Hst Hnn Hacts. apply reachable_consistent in Hreach.
  destruct sys as [s cr lo ic rq]. unfold consistent in Hreach.
  cbn [svc created looping in_cleanup cleanup_requested] in *.
  rewrite Hst in Hreach. destruct Hreach as (-> & -> & Hq & -> & Ht).
  destruct s as [q cbs st h0 th c e].
  unfold null_registered in Hnn.
  cbn [looper_ state_ event_loop_thread_ callbacks_] in *. subst q st th.
  rewrite run_step. cbn [hal_permits].
  rewrite step_CallStart_success by reflexivity.
  normalize_calls. no_null.
  unfold stopped_again. cbn in Hacts.
  repeat (destruct Hacts as [<-|Hacts]); try contradiction; exec_calls;
    try reflexivity;
    (split; [reflexivity|]);
    (split; [|reflexivity]);
    intros cb; cbn [List.concat map snd app received];
    rewrite ?app_nil_r; cbn [app received];
    rewrite ?received_app; cbn [received];
    rewrite !received_broadcast; cbn [callbacks_];
    destruct (StdSet.mem cb cbs); reflexivity.
Qed.

Lemma start_stop_cycle_stops_again_witness :
  let sys := initial 0 false false in
  let acts :=
    [ThreadRuns; CallStop; EventLoopReturns; CleanupReturns; LooperRuns] in
  reachable sys
  /\ state_ (svc sys) = STOPPED
  /\ null_registered (svc sys) = false
  /\ In acts cycles
  /\ exists steps,
       run (CallStart (WIFI_SUCCESS, 5) :: acts) sys = Some steps
       /\ fst (last steps (sys, [])) = stopped_again sys 5.
Proof.
  intros sys acts.
  assert (In acts cycles) as Hin by (cbn; auto 10).
  split; [apply reach_initial|]. split; [reflexivity|].
  split; [reflexivity|]. split; [exact Hin|].
  pose proof (start_stop_cycle_stops_again sys 5 acts
                (reach_initial 0 false false) eq_refl eq_refl Hin) as Hcycle.
  subst sys acts.
  destruct (run _ _) as [steps|].
  - exists steps. split; [reflexivity | exact (proj1 Hcycle)].
  - discriminate Hcycle.
Defined.

(** The orders of a cycle: of the ten, three have [wifi_event_loop]
    return before [stop] is called, and five in all do not go
    through. *)
Example cycles_count :
  List.length cycles = 10%nat
  /\ List.length (filter loop_returns_unasked cycles) = 3%nat
  /\ List.length
       (filter (fun acts => loop_returns_unasked acts
                            || task_runs_inside_stop acts)%bool cycles)
     = 5%nat.
Proof. repeat split; reflexivity. Qed.

(** X11: a stopping system can always finish: from every system in
    state STOPPING that a run has reached, with no null pointer
    registered, at most four further actions, none of them a call of
    [start], [stop] or [registerEventCallback], lead to state STOPPED.
    What is needed is that [wifi_cleanup] returns, if [stop] is still
    inside it, and that [wifi_event_loop] returns and the looper runs
    the task, if that has not happened. *)
Theorem stopping_can_finish (sys : system) :
  reachable sys ->
  state_ (svc sys) = STOPPING ->
  null_registered (svc sys) = false ->
  exists acts steps,
    run acts sys = Some steps
    /\ state_ (svc (fst (last steps (sys, [])))) = STOPPED
    /\ (List.length acts <= 4)%nat
    /\ Forall (fun a => In a [CleanupReturns; ThreadRuns; EventLoopReturns;
                              LooperRuns]) acts.
Proof.
  intros Hreach Hst Hnn. apply reachable_consistent in Hreach.
  destruct sys as [s cr lo ic rq]. unfold consistent in Hreach.
  cbn [svc created looping in_cleanup cleanup_requested] in *.
  rewrite Hst in Hreach. destruct Hreach as (-> & Hc & Hev).
  destruct s as [q cbs st h th c e].
  unfold null_registered in Hnn.
  cbn [looper_ state_ event_loop_thread_ awaiting_hal_cleanup_command_
       awaiting_hal_event_loop_termination_ callbacks_] in *.
  subst st c.
  assert (forall l : list action,
             (List.length l <= 4)%nat ->
             forallb (fun a => match a with
                               | CleanupReturns | ThreadRuns
                               | EventLoopReturns | LooperRuns => true
                               | _ => false end) l = true ->
             (List.length l <= 4)%nat
             /\ Forall (fun a => In a [CleanupReturns; ThreadRuns;
                                       EventLoopReturns; LooperRuns]) l)
    as Hshape.
  { intros l Hlen Hall. split; [exact Hlen|].
    apply Forall_forall. intros a Ha.
    rewrite forallb_forall in Hall. specialize (Hall a Ha).
    destruct a; try discriminate; cbn; auto. }
  destruct e.
  - destruct Hev as [(Hn & -> & ->)|(Hn & -> & ->)].
    + destruct cr as [|cr].
      * assert (lo = 1%nat) as -> by lia.
        destruct ic.
        -- exists [EventLoopReturns; CleanupReturns; LooperRuns]. eexists.
           exec_calls. split; [reflexivity|]. split; [reflexivity|].
           apply Hshape; [cbn; lia | reflexivity].
        -- exists [EventLoopReturns; LooperRuns]. eexists.
           exec_calls. split; [reflexivity|]. split; [reflexivity|].
           apply Hshape; [cbn; lia | reflexivity].
      * assert (cr = 0%nat) as -> by lia. assert (lo = 0%nat) as -> by lia.
        destruct ic.
        -- exists [ThreadRuns; EventLoopReturns; CleanupReturns; LooperRuns].
           eexists.
           exec_calls. split; [reflexivity|]. split; [reflexivity|].
           apply Hshape; [cbn; lia | reflexivity].
        -- exists [ThreadRuns; EventLoopReturns; LooperRuns]. eexists.
           exec_calls. split; [reflexivity|]. split; [reflexivity|].
           apply Hshape; [cbn; lia | reflexivity].
    + assert (cr = 0%nat) as -> by lia. assert (lo = 0%nat) as -> by lia.
      destruct ic.
      * exists [CleanupReturns; LooperRuns]. eexists.
        exec_calls. split; [reflexivity|]. split; [reflexivity|].
        apply Hshape; [cbn; lia | reflexivity].
      * exists [LooperRuns]. eexists.
        exec_calls. split; [reflexivity|]. split; [reflexivity|].
        apply Hshape; [cbn; lia | reflexivity].
  - destruct Hev as (Hn & -> & -> & ->).
    exists [CleanupReturns]. eexists.
    exec_calls. split; [reflexivity|]. split; [reflexivity|].
    apply Hshape; [cbn; lia | reflexivity].
Qed.

Lemma stopping_can_finish_witness :
  reachable system_in_cleanup
  /\ state_ (svc system_in_cleanup) = STOPPING
  /\ null_registered (svc system_in_cleanup) = false
  /\ exists acts steps,
       run acts system_in_cleanup = Some steps
       /\ state_ (svc (fst (last steps (system_in_cleanup, [])))) = STOPPED.
Proof.
  assert (reachable system_in_cleanup) as Hreach.
  { eapply (run_last_reachable run_into_cleanup (initial 0 false false)
              [_; _; _]); [apply reach_initial|]. reflexivity. }
  split; [exact Hreach|]. split; [reflexivity|]. split; [reflexivity|].
  destruct (stopping_can_finish system_in_cleanup Hreach eq_refl eq_refl)
    as (acts & steps & Hrun & Hst & _).
  exists acts, steps. auto.
Defined.

(** X12: along every run from a fresh object whose two flags are false,
    both flags are false whenever the state is not STOPPING. *)
Theorem flags_idle_along_runs
    (acts : list action) (h : wifi_handle) (steps : list (system * trace)) :
  run acts (initial h false false) = Some steps ->
  Forall (fun p => flags_idle (svc (fst p)) = true) steps.
Proof.
  intros Hrun.
  exact (run_keeps_flags_idle acts (initial h false false) steps eq_refl Hrun).
Qed.

Lemma flags_idle_along_runs_witness :
  exists steps,
    run run_into_cleanup (initial 0 false false) = Some steps
    /\ Forall (fun p => flags_idle (svc (fst p)) = true) steps.
Proof.
  eexists. 
  assert (run run_into_cleanup (initial 0 false false)
          = Some (match run run_into_cleanup (initial 0 false false) with
                  | Some steps => steps | None => [] end)) as Hrun
    by reflexivity.
  split; [exact Hrun|].
  exact (flags_idle_along_runs _ _ _ Hrun).
Defined.

(** ** Calls that arrive while the service is stopping *)

(** X13: a call of [start], [stop] or [registerEventCallback] that
    arrives while the service is stopping, after [stop] has returned and
    before the looper runs the task, does not disturb the end of the
    cleanup.  From every started system that a run has reached,
    whichever way the thread's part falls among the return of
    [wifi_cleanup] and the call, and provided the null pointer is not
    registered, by the call either, the run goes through and ends in
    state STOPPED; no [onStop] is invoked before the last action; and
    the last action, the task, invokes [onStop] once on every callback
    registered by then, a callback registered by the call included. *)
Theorem completions_tolerate_a_call
    (sys : system) (sched : list action) (call : action) :
  reachable sys ->
  state_ (svc sys) = STARTED ->
  is_call call = true ->
  StdSet.mem null (callbacks_after call (callbacks_ (svc sys))) = false ->
  In sched (stopping_with call sys) ->
  exists (before : list (system * trace)) (sys' : system) (tr' : trace),
    run (CallStop :: sched) sys = Some (before ++ [(sys', tr')])
    /\ Forall (fun p => onStop_calls (snd p) = []) before
    /\ state_ (svc sys') = STOPPED
    /\ callbacks_ (svc sys') = callbacks_after call (callbacks_ (svc sys))
    /\ onStop_calls tr' = StdSet.elements (callbacks_ (svc sys')).
Proof.
  intros Hreach Hst Hcall Hnn Hsched.
  apply reachable_consistent in Hreach.
  destruct sys as [s cr lo ic rq]. unfold consistent in Hreach.
  cbn [svc created looping in_cleanup cleanup_requested] in *.
  rewrite Hst in Hreach. destruct Hreach as (Hn & Hq & Hic & Ht & Hrq).
  destruct s as [q cbs st h th c e].
  cbn [looper_ state_ event_loop_thread_ callbacks_] in *.
  subst q st ic th rq.
  assert (StdSet.mem null cbs = false) as Hnn0.
  { destruct call; try exact Hnn. cbn [callbacks_after] in Hnn.
    rewrite RegistrationFacts.mem_insert in Hnn.
    now apply orb_false_iff in Hnn. }
  unfold stopping_with, thread_to_do in Hsched. cbn [created] in Hsched.
  assert (forall n x, n <> onStop -> onStop_calls (broadcast n x) = [])
    as Hother by (intros; now apply onStop_calls_other).
  destruct cr as [|cr].
  - assert (lo = 1%nat) as -> by lia. cbn in Hsched.
    repeat (destruct Hsched as [<-|Hsched]); try contradiction;
      destruct call; try discriminate Hcall; cbn [callbacks_after] in Hnn;
      eexists [_; _; _; _], _, _; exec_calls;
      (split; [reflexivity|]);
      (split; [repeat constructor;
               cbn [snd onStop_calls]; try reflexivity;
               apply Hother; discriminate|]);
      (split; [reflexivity|]); (split; [reflexivity|]);
      cbn [onStop_calls app]; apply onStop_calls_broadcast.
  - assert (cr = 0%nat) as -> by lia. assert (lo = 0%nat) as -> by lia.
    cbn in Hsched.
    repeat (destruct Hsched as [<-|Hsched]); try contradiction;
      destruct call; try discriminate Hcall; cbn [callbacks_after] in Hnn;
      eexists [_; _; _; _; _], _, _; exec_calls;
      (split; [reflexivity|]);
      (split; [repeat constructor;
               cbn [snd onStop_calls]; try reflexivity;
               apply Hother; discriminate|]);
      (split; [reflexivity|]); (split; [reflexivity|]);
      cbn [onStop_calls app]; apply onStop_calls_broadcast.
Qed.

Lemma completions_tolerate_a_call_witness :
  let sched := [EventLoopReturns; CleanupReturns; CallRegister 9; LooperRuns] in
  reachable system_started
  /\ state_ (svc system_started) = STARTED
  /\ StdSet.mem null
       (callbacks_after (CallRegister 9) (callbacks_ (svc system_started)))
     = false
  /\ In sched (stopping_with (CallRegister 9) system_started)
  /\ exists before sys' tr',
       run (CallStop :: sched) system_started = Some (before ++ [(sys', tr')])
       /\ state_ (svc sys') = STOPPED
       /\ onStop_calls tr' = [7; 9].
Proof.
  intros sched.
  assert (reachable system_started) as Hreach.
  { eapply (run_last_reachable
              [CallRegister 7; CallStart (WIFI_SUCCESS, 5); ThreadRuns]
              (initial 0 false false) [_; _]); [apply reach_initial|].
    reflexivity. }
  assert (In sched (stopping_with (CallRegister 9) system_started)) as Hsched
    by (cbn; auto).
  split; [exact Hreach|]. split; [reflexivity|]. split; [reflexivity|].
  split; [exact Hsched|].
  destruct (completions_tolerate_a_call system_started sched
              (CallRegister 9) Hreach eq_refl eq_refl eq_refl Hsched)
    as (before & sys' & tr' & Hrun & _ & Hst & Hcbs & Hcalls).
  exists before, sys', tr'. split; [exact Hrun|]. split; [exact Hst|].
  rewrite Hcalls, Hcbs. reflexivity.
Defined.

(** ** The failure reason, seen from the receiver *)

(** X14: the category of a failure reason tells which legacy errors can
    be behind it, whatever the description: NOT_AVAILABLE comes from
    UNINITIALIZED or NOT_AVAILABLE and from nothing else, NOT_SUPPORTED
    from NOT_SUPPORTED only, INVALID_ARGS from INVALID_ARGS or
    INVALID_REQUEST_ID only, and every other code gives UNKNOWN. *)
Theorem category_tells_the_error (error : wifi_error) (desc : string) :
  (reason (CreateFailureReasonLegacyError error desc) = NOT_AVAILABLE <->
   error = WIFI_ERROR_UNINITIALIZED \/ error = WIFI_ERROR_NOT_AVAILABLE)
  /\ (reason (CreateFailureReasonLegacyError error desc) = NOT_SUPPORTED <->
      error = WIFI_ERROR_NOT_SUPPORTED)
  /\ (reason (CreateFailureReasonLegacyError error desc) = INVALID_ARGS <->
      error = WIFI_ERROR_INVALID_ARGS \/ error = WIFI_ERROR_INVALID_REQUEST_ID)
  /\ (reason (CreateFailureReasonLegacyError error desc) = UNKNOWN <->
      error <> WIFI_ERROR_UNINITIALIZED /\ error <> WIFI_ERROR_NOT_AVAILABLE
      /\ error <> WIFI_ERROR_NOT_SUPPORTED /\ error <> WIFI_ERROR_INVALID_ARGS
      /\ error <> WIFI_ERROR_INVALID_REQUEST_ID).
Proof.
  unfold CreateFailureReasonLegacyError, CreateFailureReason,
    WIFI_ERROR_UNINITIALIZED, WIFI_ERROR_NOT_AVAILABLE,
    WIFI_ERROR_NOT_SUPPORTED, WIFI_ERROR_INVALID_ARGS,
    WIFI_ERROR_INVALID_REQUEST_ID, WIFI_ERROR_TIMED_OUT,
    WIFI_ERROR_TOO_MANY_REQUESTS, WIFI_ERROR_OUT_OF_MEMORY.
  destruct (Z.eqb_spec error (-2)); [subst; cbn; intuition (try lia; try discriminate)|].
  destruct (Z.eqb_spec error (-4)); [subst; cbn; intuition (try lia; try discriminate)|].
  destruct (Z.eqb_spec error (-3)); [subst; cbn; intuition (try lia; try discriminate)|].
  destruct (Z.eqb_spec error (-5)); [subst; cbn; intuition (try lia; try discriminate)|].
  destruct (Z.eqb_spec error (-6)); [subst; cbn; intuition (try lia; try discriminate)|].
  cbn [orb].
  destruct (error =? -7); [cbn; intuition (try lia; try discriminate)|].
  destruct (error =? -8); [cbn; intuition (try lia; try discriminate)|].
  destruct (error =? -9); cbn; intuition (try lia; try discriminate).
Qed.

(** X15: the description of a failure reason is always a C string: it
    holds no NUL character; it is ["unknown"] for a code without a row
    of its own, and otherwise begins with the characters of the given
    description up to its first NUL.  When the description given holds a NUL
    character, every code with a row of its own gives the same text, the
    characters before the first NUL, and the suffixes of TIMED_OUT,
    TOO_MANY_REQUESTS and OUT_OF_MEMORY are lost. *)
Theorem description_is_a_c_string (error : wifi_error) (desc : string) :
  nul_free (description (CreateFailureReasonLegacyError error desc)) = true
  /\ (has_own_row error = false ->
      description (CreateFailureReasonLegacyError error desc) = "unknown")
  /\ (has_own_row error = true -> nul_free desc = false ->
      description (CreateFailureReasonLegacyError error desc) = c_str desc)
  /\ (has_own_row error = true ->
      prefix (c_str desc)
        (description (CreateFailureReasonLegacyError error desc)) = true).
Proof.
  unfold has_own_row, translated_codes. cbn [existsb].
  unfold CreateFailureReasonLegacyError, CreateFailureReason.
  assert (forall suffix, nul_free desc = false ->
            c_str (desc ++ suffix) = c_str desc) as Hcut
    by (intros; now apply c_str_append_cut).
  assert (forall suffix, nul_free suffix = true ->
            prefix (c_str desc) (c_str (desc ++ suffix)) = true) as Hpre.
  { intros suffix Hs. destruct (nul_free desc) eqn:Hn.
    - rewrite (c_str_nul_free desc Hn).
      rewrite c_str_nul_free
        by (rewrite nul_free_append, Hn, Hs; reflexivity).
      clear. induction desc as [|c d IH]; cbn; [now destruct suffix|].
      destruct (ascii_dec c c); [exact IH|congruence].
    - rewrite Hcut by reflexivity.
      clear. induction (c_str desc) as [|c d IH]; cbn; [reflexivity|].
      destruct (ascii_dec c c); [exact IH|congruence]. }
  assert (prefix (c_str desc) (c_str desc) = true) as Hrefl.
  { clear. induction (c_str desc) as [|c d IH]; cbn; [reflexivity|].
    destruct (ascii_dec c c); [exact IH|congruence]. }
  destruct (error =? WIFI_ERROR_UNINITIALIZED);
    [cbn [orb description];
     repeat split; auto using c_str_is_nul_free; discriminate|].
  destruct (error =? WIFI_ERROR_NOT_AVAILABLE);
    [cbn [orb description];
     repeat split; auto using c_str_is_nul_free; discriminate|].
  destruct (error =? WIFI_ERROR_NOT_SUPPORTED);
    [cbn [orb description];
     repeat split; auto using c_str_is_nul_free; discriminate|].
  destruct (error =? WIFI_ERROR_INVALID_ARGS);
    [cbn [orb description];
     repeat split; auto using c_str_is_nul_free; discriminate|].
  destruct (error =? WIFI_ERROR_INVALID_REQUEST_ID);
    [cbn [orb description];
     repeat split; auto using c_str_is_nul_free; discriminate|].
  destruct (error =? WIFI_ERROR_TIMED_OUT);
    [cbn [orb description];
     repeat split; auto using c_str_is_nul_free; discriminate|].
  destruct (error =? WIFI_ERROR_TOO_MANY_REQUESTS);
    [cbn [orb description];
     repeat split; auto using c_str_is_nul_free; discriminate|].
  destruct (error =? WIFI_ERROR_OUT_OF_MEMORY);
    [cbn [orb description];
     repeat split; auto using c_str_is_nul_free; discriminate|].
  cbn [orb description].
  repeat split; auto; discriminate.
Qed.

Lemma description_is_a_c_string_witness :
  has_own_row WIFI_ERROR_OUT_OF_MEMORY = true
  /\ nul_free description_with_nul = false
  /\ description
       (CreateFailureReasonLegacyError WIFI_ERROR_OUT_OF_MEMORY
          description_with_nul) = "a".
Proof.
  split; [reflexivity|]. split; [reflexivity|].
  exact (proj1 (proj2 (proj2
           (description_is_a_c_string WIFI_ERROR_OUT_OF_MEMORY
              description_with_nul))) eq_refl eq_refl).
Defined.

(** ** [set_iface_up], every path *)

(** X16: [set_iface_up] returns true exactly when the socket is opened,
    the name fits [ifr_name], and the interface exists and either has
    [IFF_UP] as requested already or may have its flags set.  When it
    returns false, the kernel is as it was. *)
Theorem set_iface_up_succeeds_iff
    (if_name : string) (request_up : bool) (k : kernel) :
  (fst (fst (set_iface_up if_name request_up k)) = true <->
   0 <= socket_result k
   /\ Z.of_nat (String.length (c_str if_name)) < IFNAMSIZ
   /\ (iface_is k (c_str if_name) request_up
       \/ (lookup (c_str if_name) (interfaces k) <> None
           /\ may_set_flags k = true)))
  /\ (fst (fst (set_iface_up if_name request_up k)) = false ->
      snd (fst (set_iface_up if_name request_up k)) = k).
Proof.
  unfold iface_is.
  destruct (set_iface_up_path if_name request_up k) as
    [Hs|Hs Hl|Hs Hl Hlook|flags Hs Hl Hlook Hodd
     |flags Hs Hl Hlook Hodd Hm|flags Hs Hl Hlook Hodd Hm]; cbn [fst snd].
  - split; [|reflexivity]. split; [discriminate|]. intros (H & _). lia.
  - split; [|reflexivity]. split; [discriminate|]. intros (_ & H & _). lia.
  - split; [|reflexivity]. split; [discriminate|].
    intros (_ & _ & [(f & H & _)|(H & _)]); congruence.
  - split; [|discriminate]. split; [|reflexivity]. intros _.
    repeat split; try assumption. left. exists flags.
    rewrite iff_up_odd. auto.
  - split; [|reflexivity]. split; [discriminate|].
    intros (_ & _ & [(f & H & Hf)|(_ & H)]); [|congruence].
    rewrite iff_up_odd in Hf. congruence.
  - split; [|discriminate]. split; [|reflexivity]. intros _.
    repeat split; try assumption. right. split; [congruence|assumption].
Qed.

(** X17: [set_iface_up] asks for [IFF_UP] and for nothing else.  For an
    interface whose flags are a [short], the flags it hands to
    [SIOCSIFFLAGS], when it makes that call, are the flags it has read
    with [IFF_UP] as requested and every other bit as it was, a [short]
    again; and it makes the call only when [IFF_UP] was not as
    requested.  When it returns true the interface has [IFF_UP] as
    requested.  What the other flags are then is the kernel's. *)
Theorem set_iface_up_sets_only_IFF_UP
    (if_name : string) (request_up : bool) (k : kernel) (flags : Z) :
  lookup (c_str if_name) (interfaces k) = Some flags ->
  -32768 <= flags <= 32767 ->
  (forall name written,
      In (sys_ioctl_SIOCSIFFLAGS name written)
         (snd (set_iface_up if_name request_up k)) ->
      name = c_str if_name
      /\ negb (Z.land flags IFF_UP =? 0) = negb request_up
      /\ negb (Z.land written IFF_UP =? 0) = request_up
      /\ (forall i, 0 < i -> Z.testbit written i = Z.testbit flags i)
      /\ -32768 <= written <= 32767)
  /\ (fst (fst (set_iface_up if_name request_up k)) = true ->
      iface_is (snd (fst (set_iface_up if_name request_up k)))
        (c_str if_name) request_up).
Proof.
  intros Hlook Hrange.
  assert (forall f, f = flags -> Z.odd f <> request_up ->
            negb (Z.land flags IFF_UP =? 0) = negb request_up
            /\ negb (Z.land (with_IFF_UP request_up flags) IFF_UP =? 0)
               = request_up
            /\ (forall i, 0 < i ->
                  Z.testbit (with_IFF_UP request_up flags) i
                  = Z.testbit flags i)
            /\ -32768 <= with_IFF_UP request_up flags <= 32767) as Hwritten.
  { intros f -> Hodd. rewrite !iff_up_odd.
    split; [destruct (Z.odd flags), request_up; cbn in *; congruence|].
    split; [apply with_IFF_UP_odd|].
    split; [intros i Hi; now apply with_IFF_UP_bits|].
    unfold with_IFF_UP, to_short.
    destruct request_up;
      match goal with |- context [?a mod 65536] =>
        pose proof (Z.mod_pos_bound a 65536 eq_refl) end; lia. }
  unfold iface_is.
  destruct (set_iface_up_path if_name request_up k) as
    [Hs|Hs Hl|Hs Hl Hnone|f Hs Hl Hf Hodd
     |f Hs Hl Hf Hodd Hm|f Hs Hl Hf Hodd Hm]; cbn [fst snd];
    (split; [intros name written Hin; cbn [In] in Hin|]);
    try (intros; discriminate);
    try (repeat (destruct Hin as [Hin|Hin]; try discriminate Hin);
         contradiction).
  - intros _. exists f. rewrite iff_up_odd. auto.
  - assert (f = flags) as Hsame by congruence.
    destruct Hin as [Hin|[Hin|[Hin|[Hin|[]]]]]; try discriminate Hin.
    injection Hin as <- <-. subst f.
    split; [reflexivity|]. now apply (Hwritten flags).
  - assert (f = flags) as Hsame by congruence.
    destruct Hin as [Hin|[Hin|[Hin|[Hin|[]]]]]; try discriminate Hin.
    injection Hin as <- <-. subst f.
    split; [reflexivity|]. now apply (Hwritten flags).
  - intros _. eexists. cbn [interfaces].
    split; [apply lookup_update_same; congruence|].
    rewrite iff_up_odd. apply put_IFF_UP_odd.
Qed.

Lemma set_iface_up_sets_only_IFF_UP_witness :
  let k := sample_kernel 4098 in
  lookup (c_str "wlan0") (interfaces k) = Some 4098
  /\ -32768 <= 4098 <= 32767
  /\ In (sys_ioctl_SIOCSIFFLAGS "wlan0" 4099) (snd (set_iface_up "wlan0" true k))
  /\ Z.testbit 4099 12 = Z.testbit 4098 12
  /\ iface_is (snd (fst (set_iface_up "wlan0" true k))) (c_str "wlan0") true.
Proof.
  intros k.
  assert (-32768 <= 4098 <= 32767) as Hrange by lia.
  assert (In (sys_ioctl_SIOCSIFFLAGS "wlan0" 4099)
            (snd (set_iface_up "wlan0" true k))) as Hin by (cbn; auto).
  split; [reflexivity|]. split; [exact Hrange|]. split; [exact Hin|].
  destruct (set_iface_up_sets_only_IFF_UP "wlan0" true k 4098
              eq_refl Hrange) as (Hwritten & Hup).
  split; [|exact (Hup eq_refl)].
  destruct (Hwritten _ _ Hin) as (_ & _ & _ & Hbits & _).
  apply Hbits. lia.
Defined.

(** X18: a call that returned true, made again, changes nothing: it
    returns true without [SIOCSIFFLAGS] and leaves the kernel as the
    first call left it. *)
Theorem set_iface_up_twice
    (if_name : string) (request_up : bool) (k : kernel) :
  fst (fst (set_iface_up if_name request_up k)) = true ->
  let k' := snd (fst (set_iface_up if_name request_up k)) in
  set_iface_up if_name request_up k'
  = (true, k',
     [sys_socket; sys_ioctl_SIOCGIFFLAGS (c_str if_name);
      sys_close (socket_result k)]).
Proof.
  destruct (set_iface_up_path if_name request_up k) as
    [Hs|Hs Hl|Hs Hl Hnone|f Hs Hl Hf Hodd
     |f Hs Hl Hf Hodd Hm|f Hs Hl Hf Hodd Hm]; cbn [fst snd];
    try discriminate; intros _.
  - now apply set_iface_up_as_requested with f.
  - match goal with |- set_iface_up _ _ ?k1 = _ =>
      apply (set_iface_up_as_requested if_name request_up k1
               (put_IFF_UP request_up
                  (reports_after k f (with_IFF_UP request_up f))))
    end; cbn [socket_result interfaces]; try assumption.
    + apply lookup_update_same. congruence.
    + apply put_IFF_UP_odd.
Qed.

Lemma set_iface_up_twice_witness :
  let k := sample_kernel 4098 in
  let k' := sample_kernel 4163 in
  fst (fst (set_iface_up "wlan0" true k)) = true
  /\ set_iface_up "wlan0" true k'
     = (true, k', [sys_socket; sys_ioctl_SIOCGIFFLAGS "wlan0"; sys_close 3]).
Proof.
  intros k k'. split; [reflexivity|].
  exact (set_iface_up_twice "wlan0" true k eq_refl).
Defined.

(** X19: whatever it returns, [set_iface_up] leaves every interface
    other than the named one with its flags, adds and removes no
    interface, and changes nothing else in the kernel. *)
Theorem set_iface_up_touches_one_interface
    (if_name : string) (request_up : bool) (k : kernel) :
  let k' := snd (fst (set_iface_up if_name request_up k)) in
  socket_result k' = socket_result k
  /\ may_set_flags k' = may_set_flags k
  /\ map fst (interfaces k') = map fst (interfaces k)
  /\ (forall other, other <> c_str if_name ->
        lookup other (interfaces k') = lookup other (interfaces k))
  /\ reports_after k' = reports_after k.
Proof. apply set_iface_up_frame. Qed.

(** X20: bringing an interface up and then down again, or down and then
    up again: when the socket is opened, the name fits, flags may be set
    and the interface has [IFF_UP] not as first requested, the two calls
    return true, each makes one [SIOCSIFFLAGS], the interface has
    [IFF_UP] as requested after the first and as it was at first after
    the second, and every other interface has its flags throughout.
    The other flags of the interface need not come back: they are the
    kernel's. *)
Theorem set_iface_up_round_trip
    (if_name : string) (request_up : bool) (k : kernel) :
  0 <= socket_result k ->
  Z.of_nat (String.length (c_str if_name)) < IFNAMSIZ ->
  may_set_flags k = true ->
  iface_is k (c_str if_name) (negb request_up) ->
  let first := set_iface_up if_name request_up k in
  let second := set_iface_up if_name (negb request_up) (snd (fst first)) in
  fst (fst first) = true
  /\ iface_is (snd (fst first)) (c_str if_name) request_up
  /\ List.length (filter is_SIOCSIFFLAGS (snd first)) = 1%nat
  /\ fst (fst second) = true
  /\ iface_is (snd (fst second)) (c_str if_name) (negb request_up)
  /\ List.length (filter is_SIOCSIFFLAGS (snd second)) = 1%nat
  /\ (forall other, other <> c_str if_name ->
        lookup other (interfaces (snd (fst second)))
        = lookup other (interfaces k)).
Proof.
  intros Hs Hl Hm (flags & Hlook & Hup). rewrite iff_up_odd in Hup.
  cbv zeta. unfold iface_is.
  destruct (set_iface_up_path if_name request_up k) as
    [Hs1|Hs1 Hl1|Hs1 Hl1 Hnone|f Hs1 Hl1 Hf Hodd
     |f Hs1 Hl1 Hf Hodd Hm1|f Hs1 Hl1 Hf Hodd Hm1]; cbn [fst snd];
    try lia; try congruence.
  { assert (f = flags) by congruence. subst f. rewrite Hup in Hodd.
    destruct request_up; discriminate. }
  assert (f = flags) by congruence. subst f.
  match goal with |- context [set_iface_up _ _ ?k0] => set (k1 := k0) end.
  assert (lookup (c_str if_name) (interfaces k1)
          = Some (put_IFF_UP request_up
                    (reports_after k flags (with_IFF_UP request_up flags))))
    as Hlook1.
  { apply lookup_update_same. congruence. }
  split; [reflexivity|].
  split; [eexists; split; [exact Hlook1|];
          rewrite iff_up_odd; apply put_IFF_UP_odd|].
  split; [reflexivity|].
  destruct (set_iface_up_path if_name (negb request_up) k1) as
    [Hs2|Hs2 Hl2|Hs2 Hl2 Hnone|f Hs2 Hl2 Hf2 Hodd2
     |f Hs2 Hl2 Hf2 Hodd2 Hm2|f Hs2 Hl2 Hf2 Hodd2 Hm2]; cbn [fst snd];
    cbn [k1 socket_result may_set_flags] in *; try lia; try congruence.
  { rewrite Hlook1 in Hf2. injection Hf2 as <-.
    rewrite put_IFF_UP_odd in Hodd2. destruct request_up; discriminate. }
  split; [reflexivity|].
  split; [eexists; split;
            [apply lookup_update_same; cbn [interfaces]; congruence|];
          rewrite iff_up_odd; apply put_IFF_UP_odd|].
  split; [reflexivity|].
  intros other Hne. unfold k1. cbn [interfaces].
  rewrite !lookup_update_other by exact Hne. reflexivity.
Qed.

Lemma set_iface_up_round_trip_witness :
  let k := sample_kernel 4098 in
  0 <= socket_result k
  /\ Z.of_nat (String.length (c_str "wlan0")) < IFNAMSIZ
  /\ may_set_flags k = true
  /\ iface_is k (c_str "wlan0") (negb true)
  /\ iface_is
       (snd (fst (set_iface_up "wlan0" false
                    (snd (fst (set_iface_up "wlan0" true k))))))
       (c_str "wlan0") (negb true).
Proof.
  intros k.
  assert (0 <= socket_result k) as Hs by (cbn; lia).
  assert (Z.of_nat (String.length (c_str "wlan0")) < IFNAMSIZ) as Hl
    by reflexivity.
  assert (iface_is k (c_str "wlan0") (negb true)) as Hdown
    by (exists 4098; split; reflexivity).
  repeat (split; [first [assumption | reflexivity]|]).
  exact (proj1 (proj2 (proj2 (proj2 (proj2
           (set_iface_up_round_trip "wlan0" true k Hs Hl eq_refl Hdown)))))).
Defined.

(** X21: on every path [set_iface_up] opens one socket first; if that
    fails it makes no other call, and otherwise it closes that socket
    last and once.  In between it reads the flags at most once and
    writes them at most once, never without having read them, and both
    for the name it was given. *)
Theorem set_iface_up_system_calls
    (if_name : string) (request_up : bool) (k : kernel) :
  let calls := snd (set_iface_up if_name request_up k) in
  (socket_result k < 0 /\ calls = [sys_socket])
  \/ (0 <= socket_result k
      /\ exists between,
           calls = sys_socket :: between ++ [sys_close (socket_result k)]
           /\ (between = []
               \/ between = [sys_ioctl_SIOCGIFFLAGS (c_str if_name)]
               \/ exists flags,
                    between = [sys_ioctl_SIOCGIFFLAGS (c_str if_name);
                               sys_ioctl_SIOCSIFFLAGS (c_str if_name) flags])).
Proof.
  destruct (set_iface_up_path if_name request_up k); cbn [snd];
    [left; split; [assumption|reflexivity]|right; split; [assumption|]..].
  - exists []. split; [reflexivity|]. now left.
  - eexists [_]. split; [reflexivity|]. right. now left.
  - eexists [_]. split; [reflexivity|]. right. now left.
  - eexists [_; _]. split; [reflexivity|]. right. right. eauto.
  - eexists [_; _]. split; [reflexivity|]. right. right. eauto.
Qed.

(** ** [set_wifi_iface_up] *)

(** X22: [set_wifi_iface_up] acts on [wlan0] and on nothing else: every
    other interface keeps its flags, and without an interface of that
    name the function returns false and leaves the kernel as it was. *)
Theorem set_wifi_iface_up_only_wlan0 (request_up : bool) (k : kernel) :
  let k' := snd (fst (set_wifi_iface_up request_up k)) in
  (forall other, other <> "wlan0" ->
     lookup other (interfaces k') = lookup other (interfaces k))
  /\ map fst (interfaces k') = map fst (interfaces k)
  /\ (lookup "wlan0" (interfaces k) = None ->
      fst (fst (set_wifi_iface_up request_up k)) = false /\ k' = k).
Proof.
  unfold set_wifi_iface_up, kWlan0InterfaceName.
  destruct (set_iface_up_frame "wlan0" request_up k)
    as (_ & _ & Hn & Hother & _).
  split; [exact Hother|]. split; [exact Hn|].
  intros Hnone.
  destruct (set_iface_up_path "wlan0" request_up k); cbn [fst snd];
    try (split; reflexivity);
    change (c_str "wlan0") with "wlan0" in *; congruence.
Qed.

(** ** The timer of the security patch tests *)

(** X23: a timer started when the clock reads [started], with
    [MAX_TEST_DURATION] seconds left before the end of [time_t], is
    active at a reading [now] exactly when fewer than
    [MAX_TEST_DURATION] = 300 seconds have passed, so it is active when
    it has just been started, and once it is found inactive it stays so
    at every later reading of a clock that does not go back. *)
Theorem timer_active_for_max_test_duration (TIME_MAX started : Z) :
  started + MAX_TEST_DURATION <= TIME_MAX ->
  let timer := start_timer started in
  timer_active TIME_MAX started timer = Some 1
  /\ (forall now,
        timer_active TIME_MAX now timer
        = Some (if now - started <? 300 then 1 else 0))
  /\ (forall now later,
        now <= later ->
        timer_active TIME_MAX now timer = Some 0 ->
        timer_active TIME_MAX later timer = Some 0).
Proof.
  intros Hmax timer. unfold timer, timer_active, start_timer in *.
  unfold MAX_TEST_DURATION in *.
  destruct (Z.leb_spec (started + 300) TIME_MAX) as [_|H]; [|lia].
  split.
  { destruct (Z.ltb_spec started (started + 300)); [reflexivity|lia]. }
  split.
  - intros now.
    destruct (Z.ltb_spec now (started + 300)),
             (Z.ltb_spec (now - started) 300); try reflexivity; lia.
  - intros now later Hle.
    destruct (Z.ltb_spec now (started + 300)); [discriminate|].
    destruct (Z.ltb_spec later (started + 300)); [lia|reflexivity].
Qed.

Lemma timer_active_for_max_test_duration_witness :
  1700000000 + MAX_TEST_DURATION <= 2147483647
  /\ timer_active 2147483647 1700000299 (start_timer 1700000000) = Some 1
  /\ timer_active 2147483647 1700000300 (start_timer 1700000000) = Some 0.
Proof.
  assert (1700000000 + MAX_TEST_DURATION <= 2147483647) as Hmax
    by (unfold MAX_TEST_DURATION; lia).
  split; [exact Hmax|].
  destruct (timer_active_for_max_test_duration 2147483647 1700000000 Hmax)
    as (_ & Hnow & _).
  split; [exact (Hnow 1700000299) | exact (Hnow 1700000300)].
Defined.
